(** * inefice-core: the synchronisation engine of src/index.js

    A shallow embedding of the change translator ([changeTypes],
    [withPath]), the subscriber registry ([SubscriberState], [MapOfLists])
    and the engine ([data.observe] handler, [link], [unlink]) of
    src/index.js.

    The registry's maps ([MapOfLists.map = {}]) and the table [data] are
    plain JS objects: a property read [o[key]] finds the object's own
    property, and otherwise a member inherited from [Object.prototype]
    (['constructor'], ['toString'], ...).  Own properties are a stdpp
    [gmap] keyed by the property key; the inherited members are listed
    below.  Arrays are lists; the transport's [send] appends to an outbox.
    A thrown exception is an error result that carries the state reached
    when it was thrown: JS does not undo the effects before a [throw]. *)

From Stdlib Require Import List Bool.
From stdpp Require Import base gmap list strings pretty.
Import ListNotations.

Set Warnings "-register-all,-notation-for-abbreviation".

(** ** JS values, as read by the engine *)

(** Numbers are the integral ones; strings are ASCII (a byte is a UTF-16
    code unit).  [JFunc name arity] is a function object with its [name]
    and [length]; [JObj] lists an object's own fields in property order,
    with distinct keys. *)
Inductive JsVal : Type :=
  | JUndef
  | JNull
  | JBool (b : bool)
  | JNum (n : Z)
  | JBigInt (n : Z)
  | JStr (s : string)
  | JSym (description : option string)
  | JFunc (name : string) (arity : nat)
  | JArr (elems : list JsVal)
  | JObj (fields : list (string * JsVal)).

(** Path segments: field names or array indices. *)
Inductive Seg : Type :=
  | SKey (s : string)
  | SIdx (n : nat).

(** The property key a segment is converted to. *)
Definition seg_prop (g : Seg) : string :=
  match g with SKey s => s | SIdx n => pretty (N.of_nat n) end.

(** [typeof v === 'undefined'] *)
Definition is_undefined (v : JsVal) : bool :=
  match v with JUndef => true | _ => false end.

Definition mem (k : string) (l : list string) : bool := existsb (String.eqb k) l.

(** ** Builtin prototypes (Node.js 20), by their string-keyed members *)

Definition object_prototype_keys : list string :=
  ["constructor"; "__defineGetter__"; "__defineSetter__"; "hasOwnProperty";
   "__lookupGetter__"; "__lookupSetter__"; "isPrototypeOf";
   "propertyIsEnumerable"; "toString"; "valueOf"; "__proto__"; "toLocaleString"].

Definition array_prototype_keys : list string :=
  ["at"; "concat"; "copyWithin"; "fill"; "find"; "findIndex"; "findLast";
   "findLastIndex"; "lastIndexOf"; "pop"; "push"; "reverse"; "shift"; "unshift";
   "slice"; "sort"; "splice"; "includes"; "indexOf"; "join"; "keys"; "entries";
   "values"; "forEach"; "filter"; "flat"; "flatMap"; "map"; "every"; "some";
   "reduce"; "reduceRight"; "toLocaleString"; "toString"; "toReversed";
   "toSorted"; "toSpliced"; "with"; "constructor"].

Definition string_prototype_keys : list string :=
  ["constructor"; "anchor"; "at"; "big"; "blink"; "bold"; "charAt"; "charCodeAt";
   "codePointAt"; "concat"; "endsWith"; "fontcolor"; "fontsize"; "fixed";
   "includes"; "indexOf"; "isWellFormed"; "italics"; "lastIndexOf"; "link";
   "localeCompare"; "match"; "matchAll"; "normalize"; "padEnd"; "padStart";
   "repeat"; "replace"; "replaceAll"; "search"; "slice"; "small"; "split";
   "strike"; "sub"; "substr"; "substring"; "sup"; "startsWith"; "toString";
   "toWellFormed"; "trim"; "trimStart"; "trimLeft"; "trimEnd"; "trimRight";
   "toLocaleLowerCase"; "toLocaleUpperCase"; "toLowerCase"; "toUpperCase"; "valueOf"].

Definition number_prototype_keys : list string :=
  ["constructor"; "toExponential"; "toFixed"; "toPrecision"; "toString"; "valueOf";
   "toLocaleString"].

Definition boolean_prototype_keys : list string := ["constructor"; "toString"; "valueOf"].

Definition bigint_prototype_keys : list string :=
  ["constructor"; "toLocaleString"; "toString"; "valueOf"].

Definition symbol_prototype_keys : list string := ["constructor"; "toString"; "valueOf"].

Definition function_prototype_keys : list string :=
  ["constructor"; "apply"; "bind"; "call"; "toString"].

(** [key] names a member of [Object.prototype], so [{}[key]] is defined. *)
Definition object_proto_key (key : string) : bool := mem key object_prototype_keys.

(** A member read from a prototype: [__proto__] gives the prototype object
    itself (an object, or for arrays an array, with no own enumerable
    property), the other listed members are builtin methods, represented as
    functions named after the key they were read under (their [length] is
    not tracked). *)
Definition proto_member (keys : list string) (proto : JsVal) (key : string) : JsVal :=
  if String.eqb key "__proto__" then proto
  else if mem key keys || object_proto_key key then JFunc key 0
  else JUndef.

(** [o[key]] for a plain object [o] without an own property [key]. *)
Definition object_member (key : string) : JsVal :=
  proto_member [] (JObj []) key.

(** ** Property reads *)

Fixpoint digits_value (s : string) (acc : N) : option N :=
  match s with
  | EmptyString => Some acc
  | String a s' =>
      let d := Ascii.nat_of_ascii a in
      if (48 <=? d)%nat && (d <=? 57)%nat
      then digits_value s' (acc * 10 + N.of_nat (d - 48))%N
      else None
  end.

(** A canonical array index: the decimal numeral of some [n < 2^32 - 1]
    without leading zeros. *)
Definition array_index (s : string) : option N :=
  match s with
  | EmptyString => None
  | _ =>
      match digits_value s 0 with
      | Some n => if String.eqb (pretty n) s && (n <? 4294967295)%N then Some n else None
      | None => None
      end
  end.

Fixpoint assoc_find (k : string) (fs : list (string * JsVal)) : option JsVal :=
  match fs with
  | [] => None
  | (k', v) :: fs' => if String.eqb k k' then Some v else assoc_find k fs'
  end.

(** Element [n] of a list read as [arr[n]]. *)
Definition elem_at (l : list JsVal) (n : N) : JsVal :=
  if (n <? N.of_nat (length l))%N then default JUndef (nth_error l (N.to_nat n)) else JUndef.

(** Character [n] of a string read as [str[n]]. *)
Definition char_at (s : string) (n : N) : JsVal :=
  if (n <? N.of_nat (String.length s))%N
  then match String.get (N.to_nat n) s with
       | Some a => JStr (String a EmptyString)
       | None => JUndef
       end
  else JUndef.

(** [cursor[segment]]: [None] is the TypeError of reading a property of
    [undefined] or [null], or the [arguments]/[caller] of a (strict or
    arrow) function. *)
Definition get_seg (cursor : JsVal) (g : Seg) : option JsVal :=
  let key := seg_prop g in
  match cursor with
  | JUndef | JNull => None
  | JArr l =>
      Some (match array_index key with
            | Some n => elem_at l n
            | None =>
                if String.eqb key "length" then JNum (Z.of_nat (length l))
                else proto_member array_prototype_keys (JArr []) key
            end)
  | JObj fs =>
      Some (match assoc_find key fs with
            | Some v => v
            | None => object_member key
            end)
  | JStr s =>
      Some (match array_index key with
            | Some n => char_at s n
            | None =>
                if String.eqb key "length" then JNum (Z.of_nat (String.length s))
                else proto_member string_prototype_keys (JObj []) key
            end)
  | JBool _ => Some (proto_member boolean_prototype_keys (JObj []) key)
  | JNum _ => Some (proto_member number_prototype_keys (JObj []) key)
  | JBigInt _ => Some (proto_member bigint_prototype_keys (JObj []) key)
  | JSym d =>
      Some (if String.eqb key "description"
            then match d with Some x => JStr x | None => JUndef end
            else proto_member symbol_prototype_keys (JObj []) key)
  | JFunc nm ar =>
      if String.eqb key "arguments" || String.eqb key "caller" then None
      else Some (if String.eqb key "name" then JStr nm
                 else if String.eqb key "length" then JNum (Z.of_nat ar)
                 else proto_member function_prototype_keys (JObj []) key)
  end.

(** The Root Object Table ([data]): the own properties of the observable
    object. *)
Notation Table := (gmap string JsVal) (only parsing).

(** The methods object-observer gives the observable ([data.observe] is
    the one this file calls). *)
Definition observable_keys : list string := ["observe"; "unobserve"].

(** [data[key]] *)
Definition data_get (data : Table) (key : string) : JsVal :=
  match data !! key with
  | Some v => v
  | None => if mem key observable_keys then JFunc key 1 else object_member key
  end.

(** [withPath(d, path)]: the guard [typeof segment !== undefined]
    compares a string with [undefined] and is always true, so every segment
    is followed.  The first segment reads the table itself. *)
Definition withPath (d : Table) (path : list Seg) : option JsVal :=
  match path with
  | [] => None   (* the root object itself is never serialised by the code *)
  | g :: rest => fold_left (fun acc g' => acc ≫= fun c => get_seg c g')
                           rest (Some (data_get d (seg_prop g)))
  end.

(** ** The codec ([sejr] configured at the top of src/index.js) *)

(** Wire values; [WUndefined] is the description of the ['undefined']
    type definition, the marker for unrepresentable values. *)
Inductive Wire : Type :=
  | WUndefined
  | WNull
  | WBool (b : bool)
  | WNum (n : Z)
  | WStr (s : string)
  | WArr (elems : list Wire)
  | WObj (fields : list (string * Wire)).

(** [serialize = sejr.describe]: [clientType] passes booleans, numbers,
    strings and objects (null and arrays included) to the structural
    describer and classifies everything else (undefined, functions,
    symbols, bigints) as ['undefined']. *)
Fixpoint serialize (v : JsVal) : Wire :=
  match v with
  | JBool b => WBool b
  | JNum n => WNum n
  | JStr s => WStr s
  | JNull => WNull
  | JArr l => WArr (map serialize l)
  | JObj fs => WObj (map (fun '(k, x) => (k, serialize x)) fs)
  | JUndef | JBigInt _ | JSym _ | JFunc _ _ => WUndefined
  end.

(** ** Change records (object-observer) and protocol messages *)

Inductive ChangeType := CInsert | CUpdate | CDelete | CShuffle | CReverse.

(** A change record: its path is [SKey ch_root :: ch_sub], the head naming
    the root key; [ch_value] is the record's [value] field ([JUndef] when
    absent). *)
Record ChangeRecord := mkChange {
  ch_type : ChangeType;
  ch_root : string;
  ch_sub : list Seg;
  ch_value : JsVal
}.

Definition ch_path (c : ChangeRecord) : list Seg := SKey (ch_root c) :: ch_sub c.

(** The records object-observer emits: a [delete] record carries the
    removed value as [oldValue] and has no [value] field. *)
Definition observer_record (c : ChangeRecord) : bool :=
  match ch_type c with
  | CDelete => is_undefined (ch_value c)
  | _ => true
  end.

Inductive Op := OInit | OUpdate | OInsert | ODelete | OFinalize | OClosed.

#[global] Instance Op_eq_dec : EqDecision Op.
Proof. solve_decision. Defined.

(** A message object; [m_path] and [m_value] are [None] when the object has
    no such property. *)
Record Message := mkMsg {
  m_op : Op;
  m_key : string;
  m_path : option (list Seg);
  m_value : option Wire
}.

(** [updateFromPath] *)
Definition updateFromPath (c : ChangeRecord) (data : Table) : option Message :=
  v ← withPath data (ch_path c);
  Some (mkMsg OUpdate (ch_root c) (Some (ch_sub c)) (Some (serialize v))).

(** [insertStyleUpdate(op)] *)
Definition insertStyleUpdate (op : Op) (c : ChangeRecord) : Message :=
  mkMsg op (ch_root c) (Some (ch_sub c))
        (if is_undefined (ch_value c) then None else Some (serialize (ch_value c))).

(** [changeTypes[type].buildMessage]; [None] is a thrown TypeError. *)
Definition buildMessage (c : ChangeRecord) (data : Table) : option Message :=
  match ch_type c with
  | CInsert => Some (insertStyleUpdate OInsert c)
  | CUpdate => Some (insertStyleUpdate OUpdate c)
  | CDelete => Some (insertStyleUpdate ODelete c)
  | CShuffle | CReverse => updateFromPath c data
  end.

(** ** The transport interface *)

(** [transport.id(client)] is the stable identifier the registry files a
    client under; [handle_key client] is the property key a JS object
    coerces the handle itself to when the handle is used as a map key. *)
Class Transport (Client : Type) := {
  id : Client -> string;
  handle_key : Client -> string
}.

(** ** [MapOfLists] *)

Module MapOfLists.

(** The own properties of [this.map]. *)
Notation t A := (gmap string (list A)) (only parsing).

(** [with(key)]: stores [[]] when [this.map[key]] is undefined and returns
    the array held by the map.  [None]: [key] names a member of
    [Object.prototype], which [this.map[key]] reads instead (a function,
    or the prototype object for ['__proto__']); [with] then stores
    nothing and returns it, and the array method every caller applies to
    the result ([push], [filter] or [forEach]) throws a TypeError. *)
Definition with_ {A} (key : string) (m : t A) : option (list A * t A) :=
  match m !! key with
  | Some l => Some (l, m)
  | None => if object_proto_key key then None else Some ([], <[key := []]> m)
  end.

(** [with(key).push(x)]: pushes onto the array held by the map. *)
Definition with_push {A} (key : string) (x : A) (m : t A) : option (t A) :=
  match with_ key m with
  | Some (l, m1) => Some (<[key := l ++ [x]]> m1)
  | None => None
  end.

(** [set(key, value)]: an empty array deletes the entry.  Every call
    follows a successful [with(key)] of the same key, so [key] is never
    ['__proto__'] (whose assignment would replace the prototype). *)
Definition set {A} (key : string) (value : list A) (m : t A) : t A :=
  match value with
  | [] => delete key m
  | _ => <[key := value]> m
  end.

(** [removeAll(key)]: [delete this.map[key]] removes an own property. *)
Definition removeAll {A} (key : string) (m : t A) : t A := delete key m.

(** The own array under [key], [[]] when there is none (an observation
    of the map, not a method of it). *)
Definition get {A} (key : string) (m : t A) : list A := default [] (m !! key).

End MapOfLists.

(** ** [SubscriberState] *)

(** Errors: the [Error('No such key: ' + key)] of [link], and TypeErrors. *)
Inductive Err := NoSuchKey (key : string) | TypeError.

Section Engine.
Context {Client : Type} `{EqDecision Client} `{Transport Client}.

(** JS [e !== client] on handles *)
Definition neq_client (client e : Client) : bool := negb (bool_decide (e = client)).

Record State := mkState {
  keyToSubscribedClients : MapOfLists.t Client;
  clientsToSubscriptions : MapOfLists.t string;
  data : gmap string JsVal;
  outbox : list (Client * Message)     (** every [transport.send], in order *)
}.

(** The outcome of a call: the state reached, and the exception it threw. *)
Notation Res := (State * option Err)%type (only parsing).

Definition set_k2c (s : State) m := mkState m (clientsToSubscriptions s) (data s) (outbox s).
Definition set_c2s (s : State) m := mkState (keyToSubscribedClients s) m (data s) (outbox s).
Definition set_data (s : State) d := mkState (keyToSubscribedClients s) (clientsToSubscriptions s) d (outbox s).
Definition send (s : State) (client : Client) (msg : Message) :=
  mkState (keyToSubscribedClients s) (clientsToSubscriptions s) (data s) (outbox s ++ [(client, msg)]).

(** The clients registered for [key], one entry per registration. *)
Definition subscribers (s : State) (key : string) : list Client :=
  MapOfLists.get key (keyToSubscribedClients s).

(** [arr.forEach(f)]: an exception thrown by [f] ends the loop. *)
Fixpoint forEach {X : Type} (f : X -> State -> Res) (l : list X) (s : State) : Res :=
  match l with
  | [] => (s, None)
  | x :: l' =>
      match f x s with
      | (s', None) => forEach f l' s'
      | r => r
      end
  end.

(** [SubscriberState.unlinkSilently] *)
Definition unlinkSilently (client : Client) (key : string) (s : State) : Res :=
  match MapOfLists.with_ key (keyToSubscribedClients s) with
  | None => (s, Some TypeError)
  | Some (l, m1) =>
      (set_k2c s (MapOfLists.set key (List.filter (neq_client client) l) m1), None)
  end.

(** [SubscriberState.sendObjectUpdate] *)
Definition sendObjectUpdate (rootObjectName : string) (message : Message) (s : State) : Res :=
  match MapOfLists.with_ rootObjectName (keyToSubscribedClients s) with
  | None => (s, Some TypeError)
  | Some (l, m1) => forEach (fun client st => (send st client message, None)) l (set_k2c s m1)
  end.

(** [SubscriberState.link] *)
Definition ss_link (client : Client) (key : string) (s : State) : Res :=
  match MapOfLists.with_push key client (keyToSubscribedClients s) with
  | None => (s, Some TypeError)
  | Some m1 =>
      let s1 := set_k2c s m1 in
      match MapOfLists.with_push (id client) key (clientsToSubscriptions s1) with
      | None => (s1, Some TypeError)
      | Some m2 =>
          let s2 := set_c2s s1 m2 in
          (send s2 client (mkMsg OInit key None (Some (serialize (data_get (data s2) key)))), None)
      end
  end.

(** [SubscriberState.unlink] *)
Definition ss_unlink (client : Client) (key : string) (s : State) : Res :=
  match unlinkSilently client key s with
  | (s1, None) => (send s1 client (mkMsg OClosed key None None), None)
  | r => r
  end.

(** The callback of [clearSubscribers]' [forEach]: drop [key] from the
    list filed under the client (the handle, used as a property key). *)
Definition dropSubscription (key : string) (client : Client) (st : State) : Res :=
  match MapOfLists.with_ (handle_key client) (clientsToSubscriptions st) with
  | None => (st, Some TypeError)
  | Some (l2, c2s1) =>
      (set_c2s st (MapOfLists.set (handle_key client)
                     (List.filter (fun e => negb (String.eqb e key)) l2) c2s1), None)
  end.

(** [SubscriberState.clearSubscribers] *)
Definition clearSubscribers (key : string) (s : State) : Res :=
  match MapOfLists.with_ key (keyToSubscribedClients s) with
  | None => (s, Some TypeError)
  | Some (l, k2c1) =>
      match forEach (dropSubscription key) l (set_k2c s k2c1) with
      | (s1, None) => (set_k2c s1 (MapOfLists.removeAll key (keyToSubscribedClients s1)), None)
      | r => r
      end
  end.

(** The [transport.on('disconnect', ...)] handler of the constructor. *)
Definition disconnect (client : Client) (s : State) : Res :=
  match MapOfLists.with_ (handle_key client) (clientsToSubscriptions s) with
  | None => (s, Some TypeError)
  | Some (l, c2s1) => forEach (fun key st => unlinkSilently client key st) l (set_c2s s c2s1)
  end.

(** ** The engine ([module.exports]) *)

(** The message the [data.observe] handler builds for one record. *)
Definition changeMessage (change : ChangeRecord) (d : gmap string JsVal) : option Message :=
  match ch_type change, ch_sub change with
  | CDelete, [] => Some (mkMsg OFinalize (ch_root change) None None)
  | _, _ => buildMessage change d
  end.

(** The [data.observe] handler on one change record. *)
Definition handleChange (s : State) (change : ChangeRecord) : Res :=
  let rootObjectName := ch_root change in
  match changeMessage change (data s) with
  | None => (s, Some TypeError)
  | Some message =>
      match sendObjectUpdate rootObjectName message s with
      | (s1, None) =>
          match m_op message with
          | OFinalize => clearSubscribers rootObjectName s1
          | _ => (s1, None)
          end
      | r => r
      end
  end.

(** [changes.forEach(...)] over a batch of records. *)
Definition handleChanges (s : State) (changes : list ChangeRecord) : Res :=
  forEach (fun change st => handleChange st change) changes s.

(** [link(client, key)] of the returned object *)
Definition link (s : State) (client : Client) (key : string) : Res :=
  if is_undefined (data_get (data s) key) then (s, Some (NoSuchKey key))
  else ss_link client key s.

(** [unlink(client, key)] of the returned object *)
Definition unlink (s : State) (client : Client) (key : string) : Res :=
  ss_unlink client key s.

(** Events the engine reacts to: calls of its API, a disconnect reported
    by the transport, and a mutation of [data] (the table after the
    mutation together with the batch of records it produced). *)
Inductive Event :=
  | EvLink (client : Client) (key : string)
  | EvUnlink (client : Client) (key : string)
  | EvDisconnect (client : Client)
  | EvMutate (data' : gmap string JsVal) (changes : list ChangeRecord).

(** One event; an exception propagates to the caller (or the emitter)
    and leaves the state as far as it got. *)
Definition step (s : State) (ev : Event) : State :=
  match ev with
  | EvLink c k => fst (link s c k)
  | EvUnlink c k => fst (unlink s c k)
  | EvDisconnect c => fst (disconnect c s)
  | EvMutate d cs => fst (handleChanges (set_data s d) cs)
  end.

Definition run (s : State) (evs : list Event) : State := fold_left step evs s.

End Engine.

Arguments State Client : clear implicits.
Arguments Event Client : clear implicits.

(** ** The fake transport of the repository's tests *)

(** [buildFakeClient(name)] returns [{ name }] and refuses a name twice,
    so two handles are the same object exactly when their names agree. *)
Record FakeClient := fake { name : string }.

#[global] Instance FakeClient_eq_dec : EqDecision FakeClient.
Proof. intros [a] [b]. destruct (decide (a = b)); [left; congruence | right; congruence]. Defined.

(** [id(client)] returns [client.name]; an object used as a property key
    is converted to ["[object Object]"]. *)
#[global] Instance FakeTransport : Transport FakeClient := {
  id := name;
  handle_key := fun _ => "[object Object]"%string
}.

Definition empty_state : State FakeClient := mkState ∅ ∅ ∅ [].

(** ** Trace predicates *)

Section TracePreds.
Context {Client : Type} `{EqDecision Client} `{Transport Client}.

(** [ev] is a call [link(c, K)]. *)
Definition links_to (c : Client) (K : string) (ev : Event Client) : bool :=
  match ev with
  | EvLink d k => bool_decide (d = c) && String.eqb k K
  | _ => false
  end.

(** Some event of [evs], run from [s], is a call [link(c, K)] that returns
    without throwing. *)
Fixpoint relinks (c : Client) (K : string) (s : State Client) (evs : list (Event Client)) : bool :=
  match evs with
  | [] => false
  | ev :: evs' =>
      (links_to c K ev && bool_decide (snd (link s c K) = None)) || relinks c K (step s ev) evs'
  end.

(** Every message of [sfx] sent to [c] about [K] is a [closed] message. *)
Definition only_closed (c : Client) (K : string) (sfx : list (Client * Message)) : Prop :=
  forall m, In (c, m) sfx -> m_key m = K -> m_op m = OClosed.

(** The messages of [sfx] sent to [c]. *)
Definition sent_to (c : Client) (sfx : list (Client * Message)) : list Message :=
  map snd (List.filter (fun '(d, _) => bool_decide (d = c)) sfx).

End TracePreds.

(** ** Messages and scenarios used below *)

Definition finalize_msg (K : string) : Message := mkMsg OFinalize K None None.
Definition closed_msg (K : string) : Message := mkMsg OClosed K None None.
Definition init_msg (K : string) (v : JsVal) : Message := mkMsg OInit K None (Some (serialize v)).

(** The [op] a record of each delta type is translated to. *)
Definition op_of_change (t : ChangeType) : Op :=
  match t with
  | CInsert => OInsert
  | CUpdate => OUpdate
  | CDelete => ODelete
  | CShuffle | CReverse => OUpdate
  end.

(** The number of registrations of [c] in a subscriber list. *)
Definition count_regs {Client} `{EqDecision Client} (c : Client) (l : list Client) : nat :=
  length (List.filter (fun d => bool_decide (d = c)) l).

(** The messages sent between two states of a run. *)
Definition new_msgs {Client} (s s' : State Client) : list (Client * Message) :=
  skipn (length (outbox s)) (outbox s').

Definition client1 : FakeClient := fake "client1".

(** [server.data['foo'] = 'abc'] on a fresh engine. *)
Definition foo_abc : gmap string JsVal := <["foo" := JStr "abc"]> ∅.
Definition s_foo : State FakeClient :=
  run empty_state [EvMutate foo_abc [mkChange CInsert "foo" [] (JStr "abc")]].

(** [delete server.data['foo']]; the record carries the old value only. *)
Definition delete_foo : Event FakeClient := EvMutate ∅ [mkChange CDelete "foo" [] JUndef].

(** [server.data['foo'] = 'def'] *)
Definition update_foo : Event FakeClient :=
  EvMutate (<["foo" := JStr "def"]> ∅) [mkChange CUpdate "foo" [] (JStr "def")].

(** [link(client1, 'foo')] after ['foo'] was set. *)
Definition s_linked : State FakeClient := run s_foo [EvLink client1 "foo"].

(** ['foo'] is defined again, then updated. *)
Definition redefine_foo : list (Event FakeClient) :=
  [EvMutate (<["foo" := JObj []]> ∅) [mkChange CInsert "foo" [] (JObj [])]; update_foo].

(** [server.data['foo'] = { bar: ['a', 'b', 'c'] }] as seen after a sort. *)
Definition sorted_foo : gmap string JsVal :=
  <["foo" := JObj [("bar", JArr [JStr "a"; JStr "b"; JStr "c"])]]> ∅.

(** ['foo'] holds an array of arrays, the second one just sorted. *)
Definition nested_foo : gmap string JsVal :=
  <["foo" := JObj [("arr", JArr [JArr [JNum 3; JNum 1]; JArr [JNum 1; JNum 2; JNum 3]])]]> ∅.

(** [server.data['toString'] = 'abc'] on a fresh engine: the record's
    root key names a member of [Object.prototype]. *)
Definition toString_abc : gmap string JsVal := <["toString" := JStr "abc"]> ∅.
Definition s_toString : State FakeClient :=
  run empty_state [EvMutate toString_abc [mkChange CInsert "toString" [] (JStr "abc")]].

(** ** Definitions for the further properties *)

(** A [link] event names a client whose id is not a member of
    [Object.prototype] (other events are not constrained). *)
Definition plain_link_id {Client} `{Transport Client} (ev : Event Client) : bool :=
  match ev with
  | EvLink c _ => negb (object_proto_key (id c))
  | _ => true
  end.

(** Events that add registrations or mutate the table, but never remove a
    registration on a client's request. *)
Definition no_removal {Client} (ev : Event Client) : bool :=
  match ev with
  | EvLink _ _ | EvMutate _ _ => true
  | EvUnlink _ _ | EvDisconnect _ => false
  end.

(** The two maps of the registry agree: [c] is listed under [K] exactly
    when [K] is listed under [id(c)]. *)
Definition consistent {Client} `{Transport Client} (s : State Client) : Prop :=
  forall c K, In c (subscribers s K) <-> In K (MapOfLists.get (id c) (clientsToSubscriptions s)).

(** [s'] has no registration that [s] has not. *)
Definition shrinks {Client} (s s' : State Client) : Prop :=
  forall K d, In d (subscribers s' K) -> In d (subscribers s K).

(** Every registered client has an id that is not a member of
    [Object.prototype]. *)
Definition registered_ids_plain {Client} `{Transport Client} (s : State Client) : Prop :=
  forall K d, In d (subscribers s K) -> object_proto_key (id d) = false.

(** No key naming a member of [Object.prototype] has an entry of its own. *)
Definition no_inherited_entries {A} (m : gmap string (list A)) : Prop :=
  forall k, object_proto_key k = true -> m !! k = None.

Definition registry_without_inherited {Client} (s : State Client) : Prop :=
  no_inherited_entries (keyToSubscribedClients s) /\ no_inherited_entries (clientsToSubscriptions s).

(** A transport whose client handles are strings that serve as their own
    ids (so a handle used as a property key is its id). *)
#[global] Instance StringHandleTransport : Transport string := {
  id := fun c => c;
  handle_key := fun c => c
}.

Definition empty_string_state : State string := mkState ∅ ∅ ∅ [].

(** ** [MapOfLists] laws *)

Module MapOfListsFacts.
Import MapOfLists.

Lemma with_some {A} (k : string) (m : t A) l m1 :
  with_ k m = Some (l, m1) ->
  l = get k m /\ (forall k', get k' m1 = get k' m) /\ m1 !! k = Some l /\
  (forall k', k' <> k -> m1 !! k' = m !! k').
Proof.
  unfold with_, get. destruct (m !! k) as [l0|] eqn:E.
  - intros [= <- <-]. rewrite E. auto.
  - destruct (object_proto_key k); [discriminate|]. intros [= <- <-].
    split; [reflexivity|]. split; [|split; [apply lookup_insert_eq|]].
    + intros k'. rewrite lookup_insert. case_decide; subst; [rewrite E|]; reflexivity.
    + intros k' Hk. rewrite lookup_insert. case_decide; [congruence|reflexivity].
Qed.

Lemma with_none {A} (k : string) (m : t A) :
  with_ k m = None <-> m !! k = None /\ object_proto_key k = true.
Proof.
  unfold with_. destruct (m !! k); [split; [discriminate|intros [? _]; discriminate]|].
  destruct (object_proto_key k); split; auto; [discriminate|intros [_ ?]; discriminate].
Qed.

Lemma with_ok {A} (k : string) (m : t A) :
  object_proto_key k = false \/ m !! k <> None ->
  exists m1, with_ k m = Some (get k m, m1).
Proof.
  intros Hk. unfold with_, get. destruct (m !! k) eqn:E; [eexists; reflexivity|].
  destruct Hk as [Hk|Hk]; [rewrite Hk; eexists; reflexivity|congruence].
Qed.

Lemma with_push_some {A} (k : string) (x : A) (m m' : t A) :
  with_push k x m = Some m' ->
  (forall k', get k' m' = if decide (k = k') then get k m ++ [x] else get k' m) /\
  (forall k', k' <> k -> m' !! k' = m !! k').
Proof.
  unfold with_push. destruct (with_ k m) as [[l m1]|] eqn:E; [|discriminate].
  intros [= <-]. destruct (with_some _ _ _ _ E) as (-> & G & _ & L). split.
  - intros k'. unfold get at 1. rewrite lookup_insert. case_decide; [reflexivity|apply G].
  - intros k' Hk. rewrite lookup_insert. case_decide; [congruence|apply L; exact Hk].
Qed.

Lemma with_push_none {A} (k : string) (x : A) (m : t A) :
  with_push k x m = None <-> with_ k m = None.
Proof. unfold with_push. destruct (with_ k m) as [[l m1]|]; split; congruence. Qed.

Lemma set_get {A} (k k' : string) (v : list A) (m : t A) :
  get k' (set k v m) = if decide (k = k') then v else get k' m.
Proof.
  unfold set, get. destruct v.
  - rewrite lookup_delete. case_decide; reflexivity.
  - rewrite lookup_insert. case_decide; reflexivity.
Qed.

Lemma set_lookup_ne {A} (k k' : string) (v : list A) (m : t A) :
  k' <> k -> set k v m !! k' = m !! k'.
Proof.
  intros Hk. unfold set. destruct v.
  - rewrite lookup_delete. case_decide; [congruence|reflexivity].
  - rewrite lookup_insert. case_decide; [congruence|reflexivity].
Qed.

Lemma set_lookup_not_empty {A} (k : string) (v : list A) (m : t A) :
  set k v m !! k <> Some [].
Proof.
  unfold set. destruct v as [|x v].
  - rewrite lookup_delete_eq. discriminate.
  - rewrite lookup_insert_eq. discriminate.
Qed.

Lemma removeAll_get {A} (k k' : string) (m : t A) :
  get k' (removeAll k m) = if decide (k = k') then [] else get k' m.
Proof. unfold removeAll, get. rewrite lookup_delete. case_decide; reflexivity. Qed.

End MapOfListsFacts.

Lemma filter_true_notin {A} `{EqDecision A} (c : A) (l : list A) :
  ~ In c l -> List.filter (fun e => negb (bool_decide (e = c))) l = l.
Proof.
  induction l as [|x l IH]; simpl; intros Hn; [reflexivity|].
  rewrite bool_decide_false by (intros ->; auto). simpl. rewrite IH by auto. reflexivity.
Qed.

Section EngineFacts.
Context {Client : Type} `{EqDecision Client} `{Transport Client}.
Import MapOfListsFacts.

Implicit Types (s st : State Client) (c d : Client) (K k : string).

Lemma subscribers_send s c (msg : Message) K : subscribers (send s c msg) K = subscribers s K.
Proof. reflexivity. Qed.

Lemma shrinks_refl s : shrinks s s.
Proof. intros K d Hd. exact Hd. Qed.

Lemma shrinks_trans s1 s2 s3 : shrinks s1 s2 -> shrinks s2 s3 -> shrinks s1 s3.
Proof. intros A B K d Hd. apply A, B, Hd. Qed.

Lemma forEach_inv {X} (P : State Client -> Prop) (f : X -> State Client -> State Client * option Err)
    (l : list X) s :
  (forall x st, P st -> P (fst (f x st))) -> P s -> P (fst (forEach f l s)).
Proof.
  intros Hf. revert s. induction l as [|x l IH]; intros s Hs; simpl; [exact Hs|].
  specialize (Hf x s Hs). destruct (f x s) as [s' [e|]]; simpl in *; [exact Hf|apply IH; exact Hf].
Qed.

Lemma forEach_ok {X} (Q : X -> Prop) (f : X -> State Client -> State Client * option Err)
    (l : list X) s :
  (forall x st, Q x -> snd (f x st) = None) -> Forall Q l -> snd (forEach f l s) = None.
Proof.
  intros Hf HQ. revert s. induction HQ as [|x l Hx HQ IH]; intros s; simpl; [reflexivity|].
  specialize (Hf x s Hx). destruct (f x s) as [s' [e|]]; simpl in Hf; [discriminate|apply IH].
Qed.

Lemma forEach_total {X} (g : X -> State Client -> State Client) (l : list X) s :
  forEach (fun x st => (g x st, None)) l s = (fold_left (fun st x => g x st) l s, None).
Proof. revert s. induction l as [|x l IH]; intros s; simpl; [reflexivity|apply IH]. Qed.

Lemma send_fold (l : list Client) (msg : Message) st :
  let st' := fold_left (fun st0 client => send st0 client msg) l st in
  keyToSubscribedClients st' = keyToSubscribedClients st /\
  clientsToSubscriptions st' = clientsToSubscriptions st /\
  data st' = data st /\
  outbox st' = outbox st ++ map (fun d => (d, msg)) l.
Proof.
  revert st. induction l as [|x l IH]; intros st; simpl.
  - rewrite app_nil_r. auto.
  - destruct (IH (send st x msg)) as (A1 & A2 & A3 & A4). simpl in *.
    rewrite A1, A2, A3, A4, <- app_assoc. auto.
Qed.

Lemma unlinkSilently_cases c k s :
  (keyToSubscribedClients s !! k = None /\ object_proto_key k = true /\
   unlinkSilently c k s = (s, Some TypeError)) \/
  exists s', unlinkSilently c k s = (s', None) /\
    (forall K, subscribers s' K =
       if decide (k = K) then List.filter (neq_client c) (subscribers s k) else subscribers s K) /\
    keyToSubscribedClients s' !! k <> Some [] /\
    (forall K, K <> k -> keyToSubscribedClients s' !! K = keyToSubscribedClients s !! K) /\
    clientsToSubscriptions s' = clientsToSubscriptions s /\ data s' = data s /\ outbox s' = outbox s.
Proof.
  unfold unlinkSilently. destruct (MapOfLists.with_ k (keyToSubscribedClients s)) as [[l m1]|] eqn:E.
  - right. destruct (with_some _ _ _ _ E) as (-> & G & _ & L). eexists; split; [reflexivity|].
    split; [|split; [apply set_lookup_not_empty|split; [|auto]]].
    + intros K. unfold subscribers at 1. cbn [keyToSubscribedClients set_k2c].
      rewrite set_get. case_decide; [reflexivity|apply G].
    + intros K Hk. cbn [keyToSubscribedClients set_k2c]. rewrite set_lookup_ne by exact Hk. apply L, Hk.
  - left. apply with_none in E as [E1 E2]. auto.
Qed.

Lemma unlinkSilently_frame c k s :
  let s' := fst (unlinkSilently c k s) in
  shrinks s s' /\ clientsToSubscriptions s' = clientsToSubscriptions s /\
  data s' = data s /\ outbox s' = outbox s.
Proof.
  destruct (unlinkSilently_cases c k s) as [(_ & _ & ->)|(s' & -> & S & _ & _ & C & D & O)];
    simpl; [split; [apply shrinks_refl|auto]|].
  split; [|auto]. intros K d. rewrite S. case_decide; [subst; rewrite filter_In; tauto|auto].
Qed.

Lemma sendObjectUpdate_cases r msg s :
  (keyToSubscribedClients s !! r = None /\ object_proto_key r = true /\
   sendObjectUpdate r msg s = (s, Some TypeError)) \/
  exists s', sendObjectUpdate r msg s = (s', None) /\
    (forall K, subscribers s' K = subscribers s K) /\
    keyToSubscribedClients s' !! r = Some (subscribers s r) /\
    (forall K, K <> r -> keyToSubscribedClients s' !! K = keyToSubscribedClients s !! K) /\
    clientsToSubscriptions s' = clientsToSubscriptions s /\ data s' = data s /\
    outbox s' = outbox s ++ map (fun d => (d, msg)) (subscribers s r).
Proof.
  unfold sendObjectUpdate. destruct (MapOfLists.with_ r (keyToSubscribedClients s)) as [[l m1]|] eqn:E.
  - right. destruct (with_some _ _ _ _ E) as (-> & G & L1 & L). rewrite forEach_total.
    destruct (send_fold (MapOfLists.get r (keyToSubscribedClients s)) msg (set_k2c s m1))
      as (A1 & A2 & A3 & A4).
    eexists; split; [reflexivity|]. unfold subscribers. rewrite A1, A2, A3, A4. simpl. split_and!; auto.
  - left. apply with_none in E as [E1 E2]. auto.
Qed.

Lemma sendObjectUpdate_ok r msg s :
  object_proto_key r = false \/ keyToSubscribedClients s !! r <> None ->
  snd (sendObjectUpdate r msg s) = None.
Proof.
  intros Hr. destruct (sendObjectUpdate_cases r msg s) as [(E & P & _)|(s' & -> & _)]; [|reflexivity].
  destruct Hr as [Hr|Hr]; congruence.
Qed.

Lemma ss_link_cases c k s :
  (keyToSubscribedClients s !! k = None /\ object_proto_key k = true /\
   ss_link c k s = (s, Some TypeError)) \/
  (exists s1, ss_link c k s = (s1, Some TypeError) /\
    clientsToSubscriptions s !! id c = None /\ object_proto_key (id c) = true /\
    (forall K, subscribers s1 K = if decide (k = K) then subscribers s k ++ [c] else subscribers s K) /\
    clientsToSubscriptions s1 = clientsToSubscriptions s /\ data s1 = data s /\ outbox s1 = outbox s) \/
  (exists s', ss_link c k s = (s', None) /\
    (forall K, subscribers s' K = if decide (k = K) then subscribers s k ++ [c] else subscribers s K) /\
    (forall K, K <> k -> keyToSubscribedClients s' !! K = keyToSubscribedClients s !! K) /\
    (forall i, MapOfLists.get i (clientsToSubscriptions s') =
       if decide (id c = i) then MapOfLists.get (id c) (clientsToSubscriptions s) ++ [k]
       else MapOfLists.get i (clientsToSubscriptions s)) /\
    data s' = data s /\ outbox s' = outbox s ++ [(c, init_msg k (data_get (data s) k))]).
Proof.
  unfold ss_link. destruct (MapOfLists.with_push k c (keyToSubscribedClients s)) as [m1|] eqn:E1.
  - destruct (with_push_some _ _ _ _ E1) as (G1 & L1). right.
    destruct (MapOfLists.with_push (id c) k (clientsToSubscriptions (set_k2c s m1))) as [m2|] eqn:E2.
    + right. destruct (with_push_some _ _ _ _ E2) as (G2 & _).
      eexists; split; [reflexivity|]. split; [intros K; apply G1|]. split; [exact L1|].
      split; [intros i; simpl; apply G2|]. split; reflexivity.
    + left. apply with_push_none, with_none in E2 as [E2 P2].
      eexists; split; [reflexivity|]. split; [exact E2|]. split; [exact P2|].
      split; [intros K; apply G1|]. auto.
  - left. apply with_push_none, with_none in E1 as [E1 P1]. auto.
Qed.

Lemma dropSubscription_cases k d st :
  (clientsToSubscriptions st !! handle_key d = None /\ object_proto_key (handle_key d) = true /\
   dropSubscription k d st = (st, Some TypeError)) \/
  exists st', dropSubscription k d st = (st', None) /\
    keyToSubscribedClients st' = keyToSubscribedClients st /\ data st' = data st /\
    outbox st' = outbox st /\
    (forall x K', In K' (MapOfLists.get x (clientsToSubscriptions st')) <->
       In K' (MapOfLists.get x (clientsToSubscriptions st)) /\ (K' <> k \/ x <> handle_key d)).
Proof.
  unfold dropSubscription.
  destruct (MapOfLists.with_ (handle_key d) (clientsToSubscriptions st)) as [[l2 m1]|] eqn:E.
  - right. destruct (with_some _ _ _ _ E) as (-> & G & _). eexists; split; [reflexivity|].
    split; [reflexivity|]. split; [reflexivity|]. split; [reflexivity|].
    intros x K'. cbn [clientsToSubscriptions set_c2s]. rewrite set_get.
    case_decide as Hx.
    + subst x. rewrite filter_In, negb_true_iff, String.eqb_neq.
      split; [intros [? ?]; auto|intros [? [?|?]]; [auto|congruence]].
    + rewrite G. split; [intros ?; split; [auto|right; congruence]|tauto].
  - left. apply with_none in E as [E1 E2]. auto.
Qed.

Lemma dropSubscription_frame k d st :
  let st' := fst (dropSubscription k d st) in
  keyToSubscribedClients st' = keyToSubscribedClients st /\ data st' = data st /\
  outbox st' = outbox st.
Proof.
  destruct (dropSubscription_cases k d st) as [(_ & _ & ->)|(st' & -> & A & B & C & _)]; simpl; auto.
Qed.

Lemma clearSubscribers_loop k (l : list Client) st :
  forEach (dropSubscription k) l st = (fst (forEach (dropSubscription k) l st),
                                       snd (forEach (dropSubscription k) l st)) /\
  keyToSubscribedClients (fst (forEach (dropSubscription k) l st)) = keyToSubscribedClients st /\
  data (fst (forEach (dropSubscription k) l st)) = data st /\
  outbox (fst (forEach (dropSubscription k) l st)) = outbox st /\
  (snd (forEach (dropSubscription k) l st) = None ->
   forall x K', In K' (MapOfLists.get x (clientsToSubscriptions (fst (forEach (dropSubscription k) l st)))) <->
     In K' (MapOfLists.get x (clientsToSubscriptions st)) /\ (K' <> k \/ ~ In x (map handle_key l))).
Proof.
  split; [destruct (forEach _ _ _); reflexivity|].
  revert st. induction l as [|d l IH]; intros st; simpl.
  - split; [reflexivity|]. split; [reflexivity|]. split; [reflexivity|].
    intros _ x K'. split; [intros Hi; split; [exact Hi|right; intros []]|tauto].
  - destruct (dropSubscription_cases k d st) as [(_ & _ & E)|(st' & E & A & B & C & M)]; rewrite E; simpl.
    + split; [reflexivity|]. split; [reflexivity|]. split; [reflexivity|]. discriminate.
    + destruct (IH st') as (A' & B' & C' & M'). rewrite A', B', C', A, B, C.
      split; [reflexivity|]. split; [reflexivity|]. split; [reflexivity|].
      intros Hok x K'. rewrite (M' Hok x K'), M.
      destruct (decide (K' = k)), (decide (x = handle_key d)); subst; intuition congruence.
Qed.

Lemma clearSubscribers_cases k s :
  (exists s' e, clearSubscribers k s = (s', Some e) /\
     (forall K, subscribers s' K = subscribers s K) /\ data s' = data s /\ outbox s' = outbox s) \/
  exists s', clearSubscribers k s = (s', None) /\
    (forall K, subscribers s' K = if decide (k = K) then [] else subscribers s K) /\
    keyToSubscribedClients s' !! k = None /\
    (forall K, K <> k -> keyToSubscribedClients s' !! K = keyToSubscribedClients s !! K) /\
    data s' = data s /\ outbox s' = outbox s /\
    (forall x K', In K' (MapOfLists.get x (clientsToSubscriptions s')) <->
       In K' (MapOfLists.get x (clientsToSubscriptions s)) /\
       (K' <> k \/ ~ In x (map handle_key (subscribers s k)))).
Proof.
  unfold clearSubscribers. destruct (MapOfLists.with_ k (keyToSubscribedClients s)) as [[l m1]|] eqn:E.
  - destruct (with_some _ _ _ _ E) as (-> & G & _ & L).
    destruct (clearSubscribers_loop k (MapOfLists.get k (keyToSubscribedClients s)) (set_k2c s m1))
      as (P & A & B & C & M).
    destruct (forEach (dropSubscription k) _ (set_k2c s m1)) as [s1 [e|]] eqn:F;
      cbn [fst snd keyToSubscribedClients clientsToSubscriptions set_k2c data outbox] in *.
    + left. exists s1, e. split; [reflexivity|]. split; [|auto].
      intros K. unfold subscribers. rewrite A. apply G.
    + right. eexists; split; [reflexivity|]. cbn [keyToSubscribedClients clientsToSubscriptions set_k2c data outbox].
      rewrite A. split.
      { intros K. unfold subscribers. cbn [keyToSubscribedClients set_k2c]. rewrite removeAll_get.
        case_decide; [reflexivity|apply G]. }
      split; [apply lookup_delete_eq|]. split.
      { intros K Hk. unfold MapOfLists.removeAll. rewrite lookup_delete.
        case_decide; [congruence|apply L, Hk]. }
      split; [exact B|]. split; [exact C|]. exact (M eq_refl).
  - left. exists s, TypeError. split; [reflexivity|]. auto.
Qed.

Lemma clearSubscribers_ok k s :
  object_proto_key k = false \/ keyToSubscribedClients s !! k <> None ->
  Forall (fun d => object_proto_key (handle_key d) = false) (subscribers s k) ->
  snd (clearSubscribers k s) = None.
Proof.
  intros Hk Hh. unfold clearSubscribers.
  destruct (with_ok k (keyToSubscribedClients s) Hk) as [m1 E]. rewrite E.
  assert (Hl : snd (forEach (dropSubscription k) (MapOfLists.get k (keyToSubscribedClients s)) (set_k2c s m1)) = None).
  { apply (forEach_ok (fun d => object_proto_key (handle_key d) = false)); [|exact Hh].
    intros d st Hd. destruct (dropSubscription_cases k d st) as [(_ & P & _)|(st' & -> & _)]; [congruence|reflexivity]. }
  destruct (forEach _ _ _) as [s1 [e|]]; [discriminate|reflexivity].
Qed.

Lemma disconnect_frame c s :
  let s' := fst (disconnect c s) in
  shrinks s s' /\ data s' = data s /\ outbox s' = outbox s /\
  (object_proto_key (handle_key c) = false ->
   clientsToSubscriptions s' !! handle_key c =
     Some (MapOfLists.get (handle_key c) (clientsToSubscriptions s))).
Proof.
  unfold disconnect.
  destruct (MapOfLists.with_ (handle_key c) (clientsToSubscriptions s)) as [[l c2s1]|] eqn:E.
  - destruct (with_some _ _ _ _ E) as (-> & _ & L & _).
    apply (forEach_inv (fun st => shrinks s st /\ data st = data s /\ outbox st = outbox s /\
             (object_proto_key (handle_key c) = false -> clientsToSubscriptions st !! handle_key c =
                Some (MapOfLists.get (handle_key c) (clientsToSubscriptions s))))).
    + intros key st (S & D & O & C). destruct (unlinkSilently_frame c key st) as (S' & C' & D' & O').
      split; [exact (shrinks_trans _ _ _ S S')|]. rewrite C', D', O'. auto.
    + simpl. split; [intros K d Hd; exact Hd|]. auto.
  - simpl. apply with_none in E as [_ P]. split; [apply shrinks_refl|]. split; [reflexivity|].
    split; [reflexivity|]. congruence.
Qed.

Lemma changeMessage_key ch dt msg : changeMessage ch dt = Some msg -> m_key msg = ch_root ch.
Proof.
  unfold changeMessage, buildMessage, updateFromPath, insertStyleUpdate.
  destruct (ch_type ch), (ch_sub ch); try (intros [= <-]; reflexivity);
    destruct (withPath dt (ch_path ch)); simpl; intros [= <-]; reflexivity.
Qed.

Lemma handleChange_frame s ch :
  let s' := fst (handleChange s ch) in
  data s' = data s /\ shrinks s s' /\
  (outbox s' = outbox s \/
   exists msg, changeMessage ch (data s) = Some msg /\
     outbox s' = outbox s ++ map (fun d => (d, msg)) (subscribers s (ch_root ch))).
Proof.
  unfold handleChange. destruct (changeMessage ch (data s)) as [msg|] eqn:M;
    [|simpl; split; [reflexivity|split; [apply shrinks_refl|left; reflexivity]]].
  destruct (sendObjectUpdate_cases (ch_root ch) msg s) as [(_ & _ & ->)|(s1 & -> & S1 & _ & _ & _ & D1 & O1)];
    [simpl; split; [reflexivity|split; [apply shrinks_refl|left; reflexivity]]|].
  assert (Hs1 : shrinks s s1) by (intros K d; rewrite S1; auto).
  destruct (m_op msg);
    try (simpl; split; [exact D1|split; [exact Hs1|right; exists msg; auto]]).
  destruct (clearSubscribers_cases (ch_root ch) s1)
    as [(s2 & e & -> & S2 & D2 & O2)|(s2 & -> & S2 & _ & _ & D2 & O2 & _)]; simpl.
  - split; [congruence|]. split; [intros K d; rewrite S2; apply Hs1|right; exists msg; split; congruence].
  - split; [congruence|]. split.
    + intros K d. rewrite S2. case_decide; [intros []|apply Hs1].
    + right. exists msg. split; [reflexivity|congruence].
Qed.

Lemma handleChange_ok s ch s' :
  handleChange s ch = (s', None) ->
  exists msg, changeMessage ch (data s) = Some msg /\
    outbox s' = outbox s ++ map (fun d => (d, msg)) (subscribers s (ch_root ch)) /\
    data s' = data s /\
    forall K, subscribers s' K =
      if bool_decide (m_op msg = OFinalize /\ ch_root ch = K) then [] else subscribers s K.
Proof.
  unfold handleChange; cbv zeta. intros Hh.
  destruct (changeMessage ch (data s)) as [msg|] eqn:M; [|discriminate].
  destruct (sendObjectUpdate_cases (ch_root ch) msg s) as [(_ & _ & E)|(s1 & E & S1 & _ & _ & _ & D1 & O1)];
    rewrite E in Hh; [discriminate|].
  exists msg. split; [reflexivity|].
  destruct (m_op msg) eqn:Op;
    try (injection Hh as <-; split; [exact O1|]; split; [exact D1|];
         intros K; rewrite bool_decide_false by (intros [? _]; discriminate); apply S1).
  destruct (clearSubscribers_cases (ch_root ch) s1)
    as [(s2 & e & E2 & _)|(s2 & E2 & S2 & _ & _ & D2 & O2 & _)]; rewrite E2 in Hh; [discriminate|].
  injection Hh as <-. split; [congruence|]. split; [congruence|].
  intros K. rewrite S2. destruct (decide (ch_root ch = K)) as [E3|E3].
  - rewrite bool_decide_true by auto. reflexivity.
  - rewrite bool_decide_false by tauto. apply S1.
Qed.

Lemma handleChanges_frame cs s :
  let s' := fst (handleChanges s cs) in
  data s' = data s /\ shrinks s s' /\ exists sfx, outbox s' = outbox s ++ sfx.
Proof.
  apply (forEach_inv (fun st => data st = data s /\ shrinks s st /\ exists sfx, outbox st = outbox s ++ sfx)).
  - intros ch st (D & S & sfx & O). destruct (handleChange_frame st ch) as (D' & S' & O').
    split; [congruence|]. split; [exact (shrinks_trans _ _ _ S S')|].
    destruct O' as [O'|(msg & _ & O')]; rewrite O', O; [exists sfx; reflexivity|].
    eexists. rewrite <- app_assoc. reflexivity.
  - split; [reflexivity|]. split; [apply shrinks_refl|]. exists []. (rewrite app_nil_r; reflexivity).
Qed.

Lemma link_frame s c k :
  let s' := fst (link s c k) in
  data s' = data s /\ (forall K d, In d (subscribers s' K) -> In d (subscribers s K) \/ (d = c /\ K = k)) /\
  (outbox s' = outbox s \/ outbox s' = outbox s ++ [(c, init_msg k (data_get (data s) k))]).
Proof.
  unfold link. destruct (is_undefined _); [simpl; auto|].
  destruct (ss_link_cases c k s)
    as [(_ & _ & ->)|[(s1 & -> & _ & _ & S & _ & D & O)|(s1 & -> & S & _ & _ & D & O)]]; simpl; [auto| |];
    (split; [exact D|split; [|auto]]); intros K d; rewrite S; case_decide; [subst k|auto|subst k|auto];
    rewrite in_app_iff; simpl; intros [?|[<-|[]]]; auto.
Qed.

Lemma step_prefix s ev : exists sfx, outbox (step s ev) = outbox s ++ sfx.
Proof.
  destruct ev as [c k|c k|c|dt cs]; cbn [step].
  - destruct (link_frame s c k) as (_ & _ & [O|O]); rewrite O; eexists; [(rewrite app_nil_r; reflexivity)|reflexivity].
  - unfold unlink, ss_unlink. destruct (unlinkSilently_frame c k s) as (_ & _ & _ & O).
    destruct (unlinkSilently c k s) as [s1 [e|]]; simpl in *; rewrite O; eexists; [(rewrite app_nil_r; reflexivity)|reflexivity].
  - destruct (disconnect_frame c s) as (_ & _ & O & _). rewrite O. exists []. (rewrite app_nil_r; reflexivity).
  - destruct (handleChanges_frame cs (set_data s dt)) as (_ & _ & sfx & O). rewrite O. exists sfx. reflexivity.
Qed.

Lemma run_prefix evs s : exists sfx, outbox (run s evs) = outbox s ++ sfx.
Proof.
  unfold run. revert s. induction evs as [|ev evs IH]; intros s; simpl; [exists []; (rewrite app_nil_r; reflexivity)|].
  destruct (step_prefix s ev) as [sfx1 E1]. destruct (IH (step s ev)) as [sfx2 E2].
  exists (sfx1 ++ sfx2). rewrite E2, E1, app_assoc. reflexivity.
Qed.

(** A client not registered for [K] stays unregistered and gets only
    [closed] messages about [K], until its own [link(c, K)] completes. *)
Lemma step_unsubscribed c K s ev :
  object_proto_key (id c) = false -> ~ In c (subscribers s K) ->
  links_to c K ev && bool_decide (snd (link s c K) = None) = false ->
  ~ In c (subscribers (step s ev) K) /\
  exists sfx, outbox (step s ev) = outbox s ++ sfx /\ only_closed c K sfx.
Proof.
  intros Hid Hc Hl. destruct ev as [d k|d k|d|dt cs]; cbn [step].
  - unfold link. destruct (is_undefined (data_get (data s) k)) eqn:U.
    { simpl. split; [exact Hc|]. exists []. split; [(rewrite app_nil_r; reflexivity)|intros m []]. }
    destruct (ss_link_cases d k s)
      as [(_ & _ & E)|[(s1 & E & C1 & P1 & S & _ & _ & O)|(s1 & E & S & _ & _ & _ & O)]]; rewrite E; simpl.
    + split; [exact Hc|]. exists []. split; [(rewrite app_nil_r; reflexivity)|intros m []].
    + split; [|exists []; split; [rewrite O; (rewrite app_nil_r; reflexivity)|intros m []]].
      rewrite S. case_decide as Hk; [|exact Hc]. subst k. rewrite in_app_iff. simpl.
      intros [Hi|[<-|[]]]; [exact (Hc Hi)|congruence].
    + assert (Hdk : ~ (d = c /\ k = K)).
      { intros [-> ->]. unfold link in Hl. rewrite U, E in Hl. simpl in Hl.
        rewrite bool_decide_true, String.eqb_refl in Hl by reflexivity. discriminate. }
      split.
      * rewrite S. case_decide as Hk; [|exact Hc]. subst k. rewrite in_app_iff. simpl.
        intros [Hi|[<-|[]]]; [exact (Hc Hi)|tauto].
      * eexists. split; [exact O|]. intros m [Hm|[]] Hk. injection Hm as <- <-. simpl in Hk. tauto.
  - unfold unlink, ss_unlink.
    destruct (unlinkSilently_cases d k s) as [(_ & _ & ->)|(s1 & -> & S & _ & _ & _ & _ & O)]; simpl.
    + split; [exact Hc|]. exists []. split; [(rewrite app_nil_r; reflexivity)|intros m []].
    + split.
      * rewrite subscribers_send, S. case_decide; [subst; rewrite filter_In; tauto|exact Hc].
      * eexists. split; [rewrite O; reflexivity|]. intros m [Hm|[]] _. injection Hm as _ <-. reflexivity.
  - destruct (disconnect_frame d s) as (S & _ & O & _). split; [intros Hi; exact (Hc (S _ _ Hi))|].
    exists []. split; [rewrite O; (rewrite app_nil_r; reflexivity)|intros m []].
  - unfold handleChanges.
    apply (forEach_inv (fun st => ~ In c (subscribers st K) /\
             exists sfx, outbox st = outbox s ++ sfx /\ only_closed c K sfx)).
    + intros ch st (Hst & sfx & O & Hsfx). destruct (handleChange_frame st ch) as (_ & S & O').
      split; [intros Hi; exact (Hst (S _ _ Hi))|].
      destruct O' as [O'|(msg & M & O')]; rewrite O', O; [exists sfx; auto|].
      exists (sfx ++ map (fun d => (d, msg)) (subscribers st (ch_root ch))).
      split; [rewrite app_assoc; reflexivity|]. intros m Hm Hk. apply in_app_iff in Hm as [Hm|Hm]; [exact (Hsfx m Hm Hk)|].
      apply in_map_iff in Hm as (d' & Hd & Hin). injection Hd as -> ->.
      rewrite (changeMessage_key _ _ _ M) in Hk. subst K. contradiction.
    + split; [exact Hc|]. exists []. split; [(rewrite app_nil_r; reflexivity)|intros m []].
Qed.

Lemma run_unsubscribed c K evs s :
  object_proto_key (id c) = false -> ~ In c (subscribers s K) -> relinks c K s evs = false ->
  ~ In c (subscribers (run s evs) K) /\
  exists sfx, outbox (run s evs) = outbox s ++ sfx /\ only_closed c K sfx.
Proof.
  unfold run. intros Hid. revert s. induction evs as [|ev evs IH]; intros s Hc Hr; simpl in *.
  - split; [exact Hc|]. exists []. split; [(rewrite app_nil_r; reflexivity)|intros m []].
  - apply orb_false_iff in Hr as [H1 H2].
    destruct (step_unsubscribed c K s ev Hid Hc H1) as (Hc1 & sfx1 & O1 & C1).
    destruct (IH (step s ev) Hc1 H2) as (Hc2 & sfx2 & O2 & C2).
    split; [exact Hc2|]. exists (sfx1 ++ sfx2). split; [rewrite O2, O1, app_assoc; reflexivity|].
    intros m Hm. apply in_app_iff in Hm as [Hm|Hm]; [apply C1|apply C2]; exact Hm.
Qed.

Lemma sent_to_broadcast c (msg : Message) (l : list Client) :
  sent_to c (map (fun d => (d, msg)) l) = repeat msg (count_regs c l).
Proof.
  unfold sent_to, count_regs. induction l as [|x l IH]; simpl; [reflexivity|].
  case_bool_decide; simpl; rewrite IH; reflexivity.
Qed.

Lemma new_msgs_app s s' sfx : outbox s' = outbox s ++ sfx -> new_msgs s s' = sfx.
Proof. intros E. unfold new_msgs. rewrite E, skipn_app, skipn_all, Nat.sub_diag. reflexivity. Qed.

End EngineFacts.

(** * The claims *)

Section Claims.
Context {Client : Type} `{EqDecision Client} `{Transport Client}.

Implicit Types (s : State Client) (c : Client) (K : string).

(** C1 (amended): when the root value at [K] is deleted at the top level,
    for a root key, a client id and subscriber handles that do not name
    members of [Object.prototype], the handler completes: every
    registration for [K] receives one [finalize] message (a client
    registered [n] times receives [n]) and all registrations for [K] are
    dropped.  Afterwards, until [c] successfully calls [link(c, K)] again,
    every message about [K] that [c] receives is the [closed] message of
    one of its own [unlink(c, K)] calls: none comes from a mutation of
    [K], even if [K] is defined again. *)
Theorem root_delete_finalizes (s : State Client) K (v : JsVal) c
    (HK : object_proto_key K = false) (Hid : object_proto_key (id c) = false)
    (Hh : Forall (fun d => object_proto_key (handle_key d) = false) (subscribers s K)) :
  exists s', handleChange s (mkChange CDelete K [] v) = (s', None) /\
    outbox s' = outbox s ++ map (fun d => (d, finalize_msg K)) (subscribers s K) /\
    sent_to c (new_msgs s s') = repeat (finalize_msg K) (count_regs c (subscribers s K)) /\
    subscribers s' K = [] /\
    forall evs, relinks c K s' evs = false ->
      exists sfx, outbox (run s' evs) = outbox s' ++ sfx /\ only_closed c K sfx.
Proof.
  assert (Hok : snd (handleChange s (mkChange CDelete K [] v)) = None).
  { unfold handleChange; cbv zeta. cbn [changeMessage ch_type ch_sub ch_root].
    destruct (sendObjectUpdate_cases K (mkMsg OFinalize K None None) s)
      as [(_ & P & _)|(s1 & E & S1 & _)]; [congruence|].
    rewrite E. cbn [m_op]. apply clearSubscribers_ok; [left; exact HK|].
    rewrite S1. exact Hh. }
  destruct (handleChange s (mkChange CDelete K [] v)) as [s' e] eqn:E. simpl in Hok. subst e.
  destruct (handleChange_ok _ _ _ E) as (msg & M & O & _ & S).
  cbn in M. injection M as <-. cbn [ch_root m_op] in O, S.
  assert (Hs' : subscribers s' K = []) by (rewrite S, bool_decide_true by auto; reflexivity).
  exists s'. split; [reflexivity|]. split; [exact O|]. split.
  { rewrite (new_msgs_app _ _ _ O). apply sent_to_broadcast. }
  split; [exact Hs'|].
  intros evs Hr. destruct (run_unsubscribed c K evs s' Hid) as (_ & R); [rewrite Hs'; intros []|exact Hr|exact R].
Qed.

(** C6: a [shuffle] or [reverse] record whose path can be read in the
    live table is translated to one [update] message for key [path[0]]
    and path [path[1:]] whose value is the encoding of the value now read
    at the record's path; for a root key the registry can look up, the
    engine sends that one message to each registration of the root
    key. *)
Theorem reorder_resnapshots (s : State Client) (ch : ChangeRecord) (v : JsVal)
    (Hreorder : ch_type ch = CShuffle \/ ch_type ch = CReverse)
    (Hv : withPath (data s) (ch_path ch) = Some v) :
  changeMessage ch (data s) = Some (mkMsg OUpdate (ch_root ch) (Some (ch_sub ch)) (Some (serialize v))) /\
  (object_proto_key (ch_root ch) = false \/ keyToSubscribedClients s !! ch_root ch <> None ->
   exists s', handleChange s ch = (s', None) /\
     outbox s' = outbox s ++
       map (fun d => (d, mkMsg OUpdate (ch_root ch) (Some (ch_sub ch)) (Some (serialize v))))
           (subscribers s (ch_root ch))).
Proof.
  assert (Hm : changeMessage ch (data s) =
                 Some (mkMsg OUpdate (ch_root ch) (Some (ch_sub ch)) (Some (serialize v)))).
  { unfold changeMessage, buildMessage, updateFromPath. rewrite Hv.
    destruct Hreorder as [Ht|Ht]; rewrite Ht; destruct (ch_sub ch); reflexivity. }
  split; [exact Hm|]. intros Hr.
  assert (Hok : snd (handleChange s ch) = None).
  { unfold handleChange; cbv zeta. rewrite Hm.
    destruct (sendObjectUpdate_cases (ch_root ch) (mkMsg OUpdate (ch_root ch) (Some (ch_sub ch)) (Some (serialize v))) s)
      as [(P1 & P2 & _)|(s1 & E & _)]; [destruct Hr; congruence|].
    rewrite E. reflexivity. }
  destruct (handleChange s ch) as [s' e] eqn:E. simpl in Hok. subst e.
  exists s'. split; [reflexivity|].
  destruct (handleChange_ok _ _ _ E) as (msg & M & O & _). rewrite Hm in M. injection M as <-. exact O.
Qed.

(** C7: a record object-observer emits of type [insert] or [update], or
    of type [delete] with a path longer than one, is translated to a
    message with the record's type as [op], key [path[0]] and path
    [path[1:]]; an insert or update message carries the encoding of the
    new value exactly when that value is defined, and a delete message
    never carries a value. *)
Theorem delta_translation (dt : gmap string JsVal) (ch : ChangeRecord)
    (Hobs : observer_record ch = true)
    (Hdelta : ch_type ch = CInsert \/ ch_type ch = CUpdate \/
              (ch_type ch = CDelete /\ ch_sub ch <> [])) :
  changeMessage ch dt =
    Some (mkMsg (op_of_change (ch_type ch)) (ch_root ch) (Some (ch_sub ch))
            (if is_undefined (ch_value ch) then None else Some (serialize (ch_value ch)))) /\
  (ch_type ch = CDelete -> option_map m_value (changeMessage ch dt) = Some None).
Proof.
  assert (Hm : changeMessage ch dt =
    Some (mkMsg (op_of_change (ch_type ch)) (ch_root ch) (Some (ch_sub ch))
            (if is_undefined (ch_value ch) then None else Some (serialize (ch_value ch))))).
  { unfold changeMessage, buildMessage, insertStyleUpdate.
    destruct Hdelta as [Ht|[Ht|[Ht Hs]]]; rewrite Ht; [destruct (ch_sub ch); reflexivity..|].
    destruct (ch_sub ch); [contradiction|reflexivity]. }
  split; [exact Hm|]. intros Ht. unfold observer_record in Hobs. rewrite Ht in Hobs.
  rewrite Hm, Hobs. reflexivity.
Qed.

(** C10: [link] is not idempotent: a successful [link(c, K)] of a client
    already registered for [K] adds a second registration and sends a
    second [init] message, and every later broadcast about [K] reaches [c]
    once per registration it holds. *)
Theorem link_twice_duplicates (s s' : State Client) c K
    (Hreg : In c (subscribers s K)) (Hok : link s c K = (s', None)) :
  subscribers s' K = subscribers s K ++ [c] /\
  count_regs c (subscribers s' K) = count_regs c (subscribers s K) + 1 /\
  2 <= count_regs c (subscribers s' K) /\
  outbox s' = outbox s ++ [(c, init_msg K (data_get (data s) K))] /\
  forall (t t' : State Client) (ch : ChangeRecord), ch_root ch = K ->
    handleChange t ch = (t', None) ->
    exists msg, sent_to c (new_msgs t t') = repeat msg (count_regs c (subscribers t K)).
Proof.
  unfold link in Hok. destruct (is_undefined _); [discriminate|].
  destruct (ss_link_cases c K s)
    as [(_ & _ & E)|[(s1 & E & _)|(s1 & E & S & _ & _ & _ & O)]]; rewrite E in Hok; [discriminate..|].
  injection Hok as <-.
  assert (HS : subscribers s1 K = subscribers s K ++ [c]) by (rewrite S, decide_True by reflexivity; reflexivity).
  assert (HC : count_regs c (subscribers s1 K) = count_regs c (subscribers s K) + 1).
  { rewrite HS. unfold count_regs. rewrite List.filter_app, length_app. simpl.
    rewrite bool_decide_true by reflexivity. reflexivity. }
  split; [exact HS|]. split; [exact HC|]. split.
  { rewrite HC. assert (1 <= count_regs c (subscribers s K)); [|lia].
    unfold count_regs. destruct (List.filter _ (subscribers s K)) eqn:F; simpl; [|lia].
    exfalso. assert (Hi : In c (List.filter (fun d => bool_decide (d = c)) (subscribers s K))).
    { apply filter_In. split; [exact Hreg|apply bool_decide_true; reflexivity]. }
    rewrite F in Hi. exact Hi. }
  split; [exact O|].
  intros t t' ch Hr Ht. destruct (handleChange_ok _ _ _ Ht) as (msg & _ & Ot & _).
  exists msg. rewrite (new_msgs_app _ _ _ Ot), <- Hr. apply sent_to_broadcast.
Qed.


End Claims.

(** C2 (defect): after [link(client1, 'foo')] and [unlink(client1, 'foo')]
    the client is gone from [keyToSubscribedClients['foo']] while
    [clientsToSubscriptions['client1']] still lists ['foo']: [unlink] only
    removes the key-to-client side. *)
Theorem unlink_leaves_maps_inconsistent :
  let s := run s_foo [EvLink client1 "foo"; EvUnlink client1 "foo"] in
  ~ In client1 (subscribers s "foo") /\
  In "foo"%string (MapOfLists.get (id client1) (clientsToSubscriptions s)).
Proof. vm_compute. split; [intros []|left; reflexivity]. Qed.

(** C5 (defect): with the repository's test transport (handles
    [{ name }], [id] = [name]), a disconnect of [client1] after
    [link(client1, 'foo')] removes nothing: the handler looks the handle up
    as ["[object Object]"] instead of under [id(client1)], [client1] stays in
    both maps, and the next update of ['foo'] is still sent to it. *)
Theorem disconnect_keeps_registrations :
  let s := run s_foo [EvLink client1 "foo"; EvDisconnect client1] in
  In client1 (subscribers s "foo") /\
  In "foo"%string (MapOfLists.get (id client1) (clientsToSubscriptions s)) /\
  outbox s = outbox (run s_foo [EvLink client1 "foo"]) /\
  sent_to client1 (new_msgs s (step s update_foo)) =
    [mkMsg OUpdate "foo" (Some []) (Some (WStr "def"))].
Proof. vm_compute. repeat split; left; reflexivity. Qed.

(** C3 (defect): on a fresh engine, ['constructor'] has no value of its
    own in the table, but [data['constructor']] reads the inherited
    [Object] constructor, so [link(client1, 'constructor')] passes the
    [typeof] check and throws a TypeError from
    [keyToSubscribedClients.with('constructor').push] instead of failing
    with NoSuchKey. *)
Theorem link_constructor_throws :
  data empty_state !! "constructor"%string = None /\
  is_undefined (data_get (data empty_state) "constructor") = false /\
  link empty_state client1 "constructor" = (empty_state, Some TypeError).
Proof. vm_compute. split; [reflexivity|split; reflexivity]. Qed.

(** C4 (defect): after [server.data['toString'] = 'abc'] the key has a
    defined value, but [keyToSubscribedClients.with('toString')] returns
    the inherited [Object.prototype.toString] and its [push] throws: the
    [link] registers nothing and sends no [init] message. *)
Theorem link_toString_throws :
  data_get (data s_toString) "toString" = JStr "abc" /\
  link s_toString client1 "toString" = (s_toString, Some TypeError).
Proof. vm_compute. split; reflexivity. Qed.

(** C8 (defect): a client whose id is ['constructor'] gets registered for
    ['foo'] by a [link] that then throws at
    [clientsToSubscriptions.with('constructor').push]; [unlink] sends it
    its [closed] message, but a later [link] to the still defined ['foo']
    throws again instead of succeeding. *)
Theorem relink_constructor_throws :
  let cc := fake "constructor" in
  let s1 := fst (link s_foo cc "foo") in
  let s2 := fst (unlink s1 cc "foo") in
  snd (link s_foo cc "foo") = Some TypeError /\
  In cc (subscribers s1 "foo") /\
  snd (unlink s1 cc "foo") = None /\
  new_msgs s1 s2 = [(cc, closed_msg "foo")] /\
  ~ In cc (subscribers s2 "foo") /\
  is_undefined (data_get (data s2) "foo") = false /\
  snd (link s2 cc "foo") = Some TypeError.
Proof. vm_compute. split; [reflexivity|]. split; [left; reflexivity|]. repeat split; try reflexivity. intros []. Qed.

(** C1 does not hold as stated: a client that linked twice to ['foo'] is
    registered for it and receives two [finalize] messages when ['foo'] is
    deleted. *)
Theorem double_link_two_finalizes :
  let s := run s_foo [EvLink client1 "foo"; EvLink client1 "foo"] in
  In client1 (subscribers s "foo") /\
  sent_to client1 (new_msgs s (step s delete_foo)) = [finalize_msg "foo"; finalize_msg "foo"].
Proof. vm_compute. split; [left; reflexivity|reflexivity]. Qed.


(** * Witnesses: the claims' theorems at concrete inputs *)

Lemma root_delete_finalizes_witness :
  object_proto_key "foo" = false /\ object_proto_key (id client1) = false /\
  Forall (fun d => object_proto_key (handle_key d) = false) (subscribers s_linked "foo") /\
  exists s', handleChange s_linked (mkChange CDelete "foo" [] JUndef) = (s', None) /\
    outbox s' = outbox s_linked ++ map (fun d => (d, finalize_msg "foo")) (subscribers s_linked "foo") /\
    sent_to client1 (new_msgs s_linked s') =
      repeat (finalize_msg "foo") (count_regs client1 (subscribers s_linked "foo")) /\
    subscribers s' "foo" = [] /\
    forall evs, relinks client1 "foo" s' evs = false ->
      exists sfx, outbox (run s' evs) = outbox s' ++ sfx /\ only_closed client1 "foo" sfx.
Proof.
  assert (HK : object_proto_key "foo" = false) by reflexivity.
  assert (Hid : object_proto_key (id client1) = false) by reflexivity.
  assert (Hh : Forall (fun d => object_proto_key (handle_key d) = false) (subscribers s_linked "foo"))
    by (vm_compute; repeat constructor).
  split; [exact HK|]. split; [exact Hid|]. split; [exact Hh|].
  exact (root_delete_finalizes s_linked "foo" JUndef client1 HK Hid Hh).
Defined.

Lemma reorder_resnapshots_witness :
  let s := set_data s_linked nested_foo in
  let ch := mkChange CShuffle "foo" [SKey "arr"; SKey "1"] JUndef in
  let v := JArr [JNum 1; JNum 2; JNum 3] in
  (ch_type ch = CShuffle \/ ch_type ch = CReverse) /\
  withPath (data s) (ch_path ch) = Some v /\
  changeMessage ch (data s) = Some (mkMsg OUpdate (ch_root ch) (Some (ch_sub ch)) (Some (serialize v))) /\
  (object_proto_key (ch_root ch) = false \/ keyToSubscribedClients s !! ch_root ch <> None ->
   exists s', handleChange s ch = (s', None) /\
     outbox s' = outbox s ++
       map (fun d => (d, mkMsg OUpdate (ch_root ch) (Some (ch_sub ch)) (Some (serialize v))))
           (subscribers s (ch_root ch))).
Proof.
  intros s ch v.
  assert (Ht : ch_type ch = CShuffle \/ ch_type ch = CReverse) by (left; reflexivity).
  assert (Hv : withPath (data s) (ch_path ch) = Some v) by (vm_compute; reflexivity).
  split; [exact Ht|]. split; [exact Hv|].
  exact (reorder_resnapshots s ch v Ht Hv).
Defined.

Lemma delta_translation_witness :
  let ch := mkChange CDelete "foo" [SKey "abc"] JUndef in
  observer_record ch = true /\
  (ch_type ch = CInsert \/ ch_type ch = CUpdate \/ (ch_type ch = CDelete /\ ch_sub ch <> [])) /\
  changeMessage ch ∅ =
    Some (mkMsg (op_of_change (ch_type ch)) (ch_root ch) (Some (ch_sub ch))
            (if is_undefined (ch_value ch) then None else Some (serialize (ch_value ch)))) /\
  (ch_type ch = CDelete -> option_map m_value (changeMessage ch ∅) = Some None).
Proof.
  intros ch.
  assert (Ho : observer_record ch = true) by reflexivity.
  assert (Hd : ch_type ch = CInsert \/ ch_type ch = CUpdate \/ (ch_type ch = CDelete /\ ch_sub ch <> []))
    by (right; right; split; [reflexivity|discriminate]).
  split; [exact Ho|]. split; [exact Hd|].
  exact (delta_translation ∅ ch Ho Hd).
Defined.

Lemma link_twice_duplicates_witness :
  let s' := fst (link s_linked client1 "foo") in
  In client1 (subscribers s_linked "foo") /\ link s_linked client1 "foo" = (s', None) /\
  subscribers s' "foo" = subscribers s_linked "foo" ++ [client1] /\
  count_regs client1 (subscribers s' "foo") = count_regs client1 (subscribers s_linked "foo") + 1 /\
  2 <= count_regs client1 (subscribers s' "foo") /\
  outbox s' = outbox s_linked ++ [(client1, init_msg "foo" (data_get (data s_linked) "foo"))] /\
  forall (t t' : State FakeClient) (ch : ChangeRecord), ch_root ch = "foo"%string ->
    handleChange t ch = (t', None) ->
    exists msg, sent_to client1 (new_msgs t t') = repeat msg (count_regs client1 (subscribers t "foo")).
Proof.
  intros s'.
  assert (Hreg : In client1 (subscribers s_linked "foo")) by (vm_compute; left; reflexivity).
  assert (Hok : link s_linked client1 "foo" = (s', None)) by (vm_compute; reflexivity).
  split; [exact Hreg|]. split; [exact Hok|].
  exact (link_twice_duplicates s_linked s' client1 "foo" Hreg Hok).
Defined.

(** * Further properties of src/index.js *)

(** X3: an insert or update record gives a message without a value field
    exactly when its new value is [undefined], and one whose value is the
    [undefined] marker exactly when the new value is a function, a symbol
    or a bigint. *)
Theorem unrepresentable_new_value (dt : gmap string JsVal) (ch : ChangeRecord)
    (Hty : ch_type ch = CInsert \/ ch_type ch = CUpdate) :
  exists msg, changeMessage ch dt = Some msg /\
    (m_value msg = None <-> ch_value ch = JUndef) /\
    (m_value msg = Some WUndefined <->
       (exists nm ar, ch_value ch = JFunc nm ar) \/ (exists d, ch_value ch = JSym d) \/
       (exists n, ch_value ch = JBigInt n)).
Proof.
  assert (Hm : changeMessage ch dt = Some (insertStyleUpdate (op_of_change (ch_type ch)) ch)).
  { unfold changeMessage, buildMessage. destruct Hty as [Ht|Ht]; rewrite Ht; destruct (ch_sub ch); reflexivity. }
  eexists. split; [exact Hm|]. unfold insertStyleUpdate. cbn [m_value].
  destruct (ch_value ch) as [| |b|n|n|str|d|nm ar|l|fs]; simpl.
  all: split; [split; [intros E; try discriminate; try reflexivity|intros E; try discriminate; reflexivity]|].
  all: split; [intros E|intros E]; try discriminate; try reflexivity.
  all: repeat match goal with
    | E : exists _, _ |- _ => destruct E as [? E]
    | E : _ \/ _ |- _ => destruct E as [E|E]
    end; try discriminate.
  all: eauto 6.
Qed.

Lemma withPath_fold_none (q : list Seg) :
  fold_left (fun acc g' => acc ≫= fun c => get_seg c g') q None = None.
Proof. induction q as [|g q IH]; simpl; [reflexivity|exact IH]. Qed.

(** X5: once a path reaches [undefined] or [null], reading any further
    segment throws (TypeError). *)
Theorem withPath_through_missing (d : gmap string JsVal) (p q : list Seg)
    (Hp : withPath d p = Some JUndef \/ withPath d p = Some JNull) (Hq : q <> []) :
  withPath d (p ++ q) = None.
Proof.
  destruct p as [|g0 p]; [destruct Hp as [E|E]; discriminate|].
  destruct q as [|g q]; [contradiction|]. simpl in *. rewrite fold_left_app.
  destruct Hp as [E|E]; rewrite E; simpl; apply withPath_fold_none.
Qed.


Section EngineExtras.
Context {Client : Type} `{EqDecision Client} `{Transport Client}.
Import MapOfListsFacts.

Implicit Types (s : State Client) (c d : Client) (K k : string).

Lemma filter_neq_client_notin c (l : list Client) :
  ~ In c l -> List.filter (neq_client c) l = l.
Proof.
  induction l as [|x l IH]; simpl; intros Hn; [reflexivity|].
  unfold neq_client at 1. rewrite bool_decide_false by (intros ->; auto). simpl.
  rewrite IH by auto. reflexivity.
Qed.

Lemma filter_neq_client_self c : List.filter (neq_client c) [c] = [].
Proof. simpl. unfold neq_client. rewrite bool_decide_true by reflexivity. reflexivity. Qed.

Lemma subscribers_lookup s K : subscribers s K <> [] -> keyToSubscribedClients s !! K <> None.
Proof. unfold subscribers, MapOfLists.get. destruct (keyToSubscribedClients s !! K); [discriminate|auto]. Qed.

(** X8: unlinking a client that is not registered for a key the registry
    can look up changes no subscriber list, and still sends the client
    one [closed] message. *)
Theorem unlink_non_member s c k
    (Hk : object_proto_key k = false \/ keyToSubscribedClients s !! k <> None)
    (Hn : ~ In c (subscribers s k)) :
  exists s', unlink s c k = (s', None) /\
    (forall K, subscribers s' K = subscribers s K) /\
    outbox s' = outbox s ++ [(c, closed_msg k)].
Proof.
  unfold unlink, ss_unlink.
  destruct (unlinkSilently_cases c k s) as [(E & P & _)|(s1 & -> & S & _ & _ & _ & _ & O)];
    [destruct Hk; congruence|].
  eexists. split; [reflexivity|]. split.
  - intros K. rewrite subscribers_send, S. case_decide; [subst; apply filter_neq_client_notin; exact Hn|reflexivity].
  - simpl. rewrite O. reflexivity.
Qed.

(** X9: a successful [link] of a client not yet registered for [K],
    followed by [unlink] of the same pair, leaves every subscriber list as
    it was. *)
Theorem link_then_unlink (s s1 : State Client) c K
    (Hlink : link s c K = (s1, None)) (Hn : ~ In c (subscribers s K)) :
  forall K', subscribers (fst (unlink s1 c K)) K' = subscribers s K'.
Proof.
  unfold link in Hlink. destruct (is_undefined _); [discriminate|].
  destruct (ss_link_cases c K s)
    as [(_ & _ & E)|[(s2 & E & _)|(s2 & E & L & _)]]; rewrite E in Hlink; [discriminate..|].
  injection Hlink as <-.
  assert (HL : subscribers s2 K = subscribers s K ++ [c]) by (rewrite L, decide_True by reflexivity; reflexivity).
  intros K'. unfold unlink, ss_unlink.
  destruct (unlinkSilently_cases c K s2) as [(E2 & _)|(s3 & -> & S & _)].
  - exfalso. apply (subscribers_lookup s2 K); [rewrite HL; destruct (subscribers s K); discriminate|exact E2].
  - simpl. rewrite subscribers_send, S. destruct (decide (K = K')) as [<-|Ne]; [|rewrite L, decide_False by exact Ne; reflexivity].
    rewrite HL, List.filter_app, filter_neq_client_notin by exact Hn.
    rewrite filter_neq_client_self. apply app_nil_r.
Qed.


(** X10: a disconnect sends no message, leaves the table alone and never
    adds a registration. *)
Theorem disconnect_silent c s :
  outbox (fst (disconnect c s)) = outbox s /\ data (fst (disconnect c s)) = data s /\
  (forall d K, ~ In d (subscribers s K) -> ~ In d (subscribers (fst (disconnect c s)) K)).
Proof.
  destruct (disconnect_frame c s) as (S & D & O & _).
  split; [exact O|]. split; [exact D|]. intros d K Hn Hi. exact (Hn (S _ _ Hi)).
Qed.

(** X11: finalizing [k] ([clearSubscribers]), for a key the registry can
    look up and subscribers whose handles do not name members of
    [Object.prototype], completes: it empties [k]'s subscriber list,
    leaves every other key's list and the outbox alone, and removes [k]
    (and nothing else) from the subscription lists filed under the
    subscribers' handles used as property keys. *)
Theorem clearSubscribers_effect k s
    (Hk : object_proto_key k = false \/ keyToSubscribedClients s !! k <> None)
    (Hh : Forall (fun d => object_proto_key (handle_key d) = false) (subscribers s k)) :
  exists s', clearSubscribers k s = (s', None) /\
    subscribers s' k = [] /\
    (forall K, K <> k -> subscribers s' K = subscribers s K) /\
    outbox s' = outbox s /\
    (forall x K', In K' (MapOfLists.get x (clientsToSubscriptions s')) <->
       In K' (MapOfLists.get x (clientsToSubscriptions s)) /\
       (K' <> k \/ ~ In x (map handle_key (subscribers s k)))).
Proof.
  pose proof (clearSubscribers_ok k s Hk Hh) as Hok.
  destruct (clearSubscribers_cases k s) as [(s' & e & E & _)|(s' & E & S & _ & _ & _ & O & M)];
    rewrite E in Hok; [discriminate|].
  exists s'. split; [exact E|]. split; [rewrite S, decide_True by reflexivity; reflexivity|].
  split; [intros K Hne; rewrite S, decide_False by congruence; reflexivity|].
  split; [exact O|exact M].
Qed.

(** X13: the message built for a record carries the record's root key and
    is sent once to each registration of that key, in registration order,
    and to nobody else; the table is not touched. *)
Theorem handleChange_routing (s s' : State Client) (ch : ChangeRecord)
    (Hok : handleChange s ch = (s', None)) :
  exists msg, m_key msg = ch_root ch /\
    outbox s' = outbox s ++ map (fun d => (d, msg)) (subscribers s (ch_root ch)) /\
    data s' = data s.
Proof.
  destruct (handleChange_ok _ _ _ Hok) as (msg & M & O & D & _).
  exists msg. split; [exact (changeMessage_key _ _ _ M)|]. split; [exact O|exact D].
Qed.


Lemma object_member_defined K :
  object_proto_key K = true -> is_undefined (object_member K) = false.
Proof.
  intros Hp. unfold object_member, proto_member. destruct (String.eqb K "__proto__"); [reflexivity|].
  rewrite Hp, orb_true_r. reflexivity.
Qed.

(** X15: for a key with no value of its own in the table that names a
    member of [Object.prototype], and no entry of its own in
    [keyToSubscribedClients], [link(c, K)] reads the inherited member,
    passes the [typeof] check and throws a TypeError, changing nothing. *)
Theorem link_inherited_key_throws s c K
    (Hd : data s !! K = None) (Hp : object_proto_key K = true)
    (Hk : keyToSubscribedClients s !! K = None) :
  is_undefined (data_get (data s) K) = false /\ link s c K = (s, Some TypeError).
Proof.
  assert (Hdef : is_undefined (data_get (data s) K) = false).
  { unfold data_get. rewrite Hd. destruct (mem K observable_keys); [reflexivity|].
    apply object_member_defined, Hp. }
  split; [exact Hdef|]. unfold link, ss_link. rewrite Hdef.
  unfold MapOfLists.with_push, MapOfLists.with_. rewrite Hk, Hp. reflexivity.
Qed.

(** X16: [link(c, K)] for a key with a defined value, when neither [K]
    nor [transport.id(c)] is an inherited member the registry would read
    instead of its own entry, completes: it registers [c] under [K] (and
    [K] under [c]'s id) and sends [c] one [init] message carrying the
    encoding of the current value; every later message comes after it. *)
Theorem link_defined_sends_init s c K
    (Hdef : is_undefined (data_get (data s) K) = false)
    (HK : object_proto_key K = false \/ keyToSubscribedClients s !! K <> None)
    (Hid : object_proto_key (id c) = false \/ clientsToSubscriptions s !! id c <> None) :
  exists s', link s c K = (s', None) /\
    subscribers s' K = subscribers s K ++ [c] /\
    MapOfLists.get (id c) (clientsToSubscriptions s') =
      MapOfLists.get (id c) (clientsToSubscriptions s) ++ [K] /\
    outbox s' = outbox s ++ [(c, init_msg K (data_get (data s) K))] /\
    forall evs, exists sfx,
      outbox (run s' evs) = outbox s ++ (c, init_msg K (data_get (data s) K)) :: sfx.
Proof.
  unfold link. rewrite Hdef.
  destruct (ss_link_cases c K s)
    as [(E & P & _)|[(s1 & _ & C1 & P1 & _ & C & _)|(s1 & E & S & _ & C & _ & O)]];
    [destruct HK; congruence|destruct Hid; congruence|].
  exists s1. split; [exact E|]. split; [rewrite S, decide_True by reflexivity; reflexivity|].
  split; [rewrite C, decide_True by reflexivity; reflexivity|]. split; [exact O|].
  intros evs. destruct (run_prefix evs s1) as [sfx R].
  exists sfx. rewrite R, O, <- app_assoc. reflexivity.
Qed.

(** X17: [unlink(c, K)] for a key the registry can look up and a client id
    that is not an inherited member sends [c] exactly one [closed] message
    and drops every registration of [c] for [K].  Afterwards, until [c]
    successfully links to [K] again, every message about [K] that [c]
    receives is a [closed] one of a further unlink; and a later
    [link(c, K)] completes when [K] is defined and not an inherited
    member. *)
Theorem unlink_closes s c K
    (HK : object_proto_key K = false \/ keyToSubscribedClients s !! K <> None)
    (Hid : object_proto_key (id c) = false) :
  exists s', unlink s c K = (s', None) /\
    outbox s' = outbox s ++ [(c, closed_msg K)] /\
    ~ In c (subscribers s' K) /\
    (forall evs, relinks c K s' evs = false ->
       exists sfx, outbox (run s' evs) = outbox s' ++ sfx /\ only_closed c K sfx) /\
    (forall evs, is_undefined (data_get (data (run s' evs)) K) = false -> object_proto_key K = false ->
       exists s'', link (run s' evs) c K = (s'', None) /\ In c (subscribers s'' K)).
Proof.
  unfold unlink, ss_unlink.
  destruct (unlinkSilently_cases c K s) as [(E & P & _)|(s1 & -> & S & _ & _ & _ & _ & O)];
    [destruct HK; congruence|].
  set (s' := send s1 c (closed_msg K)).
  assert (Hc : ~ In c (subscribers s' K)).
  { unfold s'. rewrite subscribers_send, S, decide_True by reflexivity. rewrite filter_In.
    unfold neq_client. rewrite bool_decide_true by reflexivity. intros [_ F]; discriminate. }
  exists s'. split; [reflexivity|]. split; [unfold s'; simpl; rewrite O; reflexivity|].
  split; [exact Hc|]. split.
  - intros evs Hr. destruct (run_unsubscribed c K evs s' Hid Hc Hr) as (_ & R). exact R.
  - intros evs Hdef HK'. unfold link. rewrite Hdef.
    destruct (ss_link_cases c K (run s' evs))
      as [(_ & P & _)|[(s2 & _ & _ & P & _)|(s2 & E & S' & _)]]; [congruence|congruence|].
    exists s2. split; [exact E|]. rewrite S', decide_True by reflexivity.
    apply in_or_app. right. left. reflexivity.
Qed.

End EngineExtras.

Section Consistency.
Context {Client : Type} `{EqDecision Client} `{Transport Client}.

(** The handle, used as a property key, is the client's id, and ids are
    distinct. *)
Hypothesis handle_is_id : forall c, handle_key c = id c.
Hypothesis id_inj : forall c d : Client, id c = id d -> c = d.

Lemma ss_link_consistent (c : Client) k (s : State Client) :
  object_proto_key (id c) = false -> consistent s -> registered_ids_plain s ->
  consistent (fst (ss_link c k s)) /\ registered_ids_plain (fst (ss_link c k s)).
Proof.
  intros Hid Hc Hp.
  destruct (ss_link_cases c k s)
    as [(_ & _ & ->)|[(s1 & _ & _ & P & _)|(s1 & -> & S & _ & C & _)]]; simpl; [auto|congruence|].
  split.
  - intros d K. unfold consistent in Hc. rewrite S, C. destruct (decide (id c = id d)) as [E|E].
    + apply id_inj in E. subst d. destruct (decide (k = K)) as [<-|Ne]; rewrite ?in_app_iff, Hc; simpl.
      * tauto.
      * split; [tauto|]. intros [Hi|[Hi|[]]]; [exact Hi|congruence].
    + destruct (decide (k = K)) as [<-|Ne]; [|apply Hc].
      rewrite in_app_iff, Hc. simpl. split; [intros [Hi|[Hi|[]]]; [exact Hi|subst; congruence]|tauto].
  - intros K d. rewrite S. case_decide; [|apply Hp].
    subst K. rewrite in_app_iff. intros [Hi|[<-|[]]]; [exact (Hp _ _ Hi)|exact Hid].
Qed.

Lemma sendObjectUpdate_consistent r msg (s : State Client) :
  consistent s -> registered_ids_plain s ->
  consistent (fst (sendObjectUpdate r msg s)) /\ registered_ids_plain (fst (sendObjectUpdate r msg s)).
Proof.
  intros Hc Hp.
  destruct (sendObjectUpdate_cases r msg s) as [(_ & _ & ->)|(s1 & -> & S & _ & _ & C & _)]; simpl; [auto|].
  split; [intros d K; rewrite S, C; apply Hc|intros K d; rewrite S; apply Hp].
Qed.

Lemma clearSubscribers_consistent k (s : State Client) :
  keyToSubscribedClients s !! k <> None -> consistent s -> registered_ids_plain s ->
  consistent (fst (clearSubscribers k s)) /\ registered_ids_plain (fst (clearSubscribers k s)).
Proof.
  intros Hk Hc Hp.
  assert (Hh : Forall (fun d => object_proto_key (handle_key d) = false) (subscribers s k)).
  { apply List.Forall_forall. intros d Hd. rewrite handle_is_id. exact (Hp _ _ Hd). }
  pose proof (clearSubscribers_ok k s (or_intror Hk) Hh) as Hok.
  destruct (clearSubscribers_cases k s) as [(s' & e & E & _)|(s' & E & S & _ & _ & _ & _ & M)];
    rewrite E in *; [discriminate|]. simpl. split.
  - intros d K. unfold consistent in Hc. rewrite S, M. destruct (decide (k = K)) as [<-|Ne].
    + split; [intros []|]. intros [Hi [Hne|Hn]]; [congruence|].
      apply Hc in Hi. apply Hn. rewrite <- handle_is_id. apply in_map. exact Hi.
    + rewrite Hc. split; [intros Hi; split; [exact Hi|left; congruence]|tauto].
  - intros K d. rewrite S. case_decide; [intros []|apply Hp].
Qed.

Lemma handleChange_consistent (s : State Client) ch :
  consistent s -> registered_ids_plain s ->
  consistent (fst (handleChange s ch)) /\ registered_ids_plain (fst (handleChange s ch)).
Proof.
  intros Hc Hp. unfold handleChange; cbv zeta.
  destruct (changeMessage ch (data s)) as [msg|]; [|simpl; auto].
  pose proof (sendObjectUpdate_consistent (ch_root ch) msg s Hc Hp) as H1.
  destruct (sendObjectUpdate_cases (ch_root ch) msg s) as [(_ & _ & E)|(s1 & E & _ & L & _)];
    rewrite E in *; [exact H1|].
  destruct (m_op msg); try exact H1.
  apply clearSubscribers_consistent; [rewrite L; discriminate|apply H1|apply H1].
Qed.

Lemma handleChanges_consistent cs (s : State Client) :
  consistent s -> registered_ids_plain s ->
  consistent (fst (handleChanges s cs)) /\ registered_ids_plain (fst (handleChanges s cs)).
Proof.
  intros Hc Hp. apply (forEach_inv (fun st => consistent st /\ registered_ids_plain st)); [|auto].
  intros ch st [A B]. apply handleChange_consistent; assumption.
Qed.

(** X12: when client handles are their own ids, links of clients whose
    ids are not members of [Object.prototype] and mutation batches (root
    deletions included) keep the two maps of the registry mutually
    consistent; only [unlink] and disconnects break it. *)
Theorem registry_consistent_without_removals (s : State Client) (evs : list (Event Client))
    (Hs : consistent s) (Hp : registered_ids_plain s)
    (Hevs : forallb (fun ev => no_removal ev && plain_link_id ev) evs = true) :
  consistent (run s evs).
Proof.
  cut (consistent (run s evs) /\ registered_ids_plain (run s evs)); [tauto|].
  unfold run. revert s Hs Hp. induction evs as [|ev evs IH]; intros s Hs Hp; simpl in *; [auto|].
  apply andb_prop in Hevs as [H1 H2]. apply andb_prop in H1 as [Hn Hl].
  destruct (IH H2 (step s ev)) as [A B]; [| |split; assumption];
  destruct ev as [c k|c k|c|dt cs]; try discriminate; cbn [step].
  all: try (unfold link; destruct (is_undefined _); [exact Hs|]; apply ss_link_consistent;
            [apply negb_true_iff; exact Hl|exact Hs|exact Hp]).
  all: try (unfold link; destruct (is_undefined _); [exact Hp|]; apply ss_link_consistent;
            [apply negb_true_iff; exact Hl|exact Hs|exact Hp]).
  all: apply handleChanges_consistent; [exact Hs|exact Hp].
Qed.

End Consistency.

Module InheritedKeys.

Lemma with_proto {A} k (m : MapOfLists.t A) l m1 :
  no_inherited_entries m -> MapOfLists.with_ k m = Some (l, m1) -> object_proto_key k = false.
Proof.
  intros Hn E. destruct (object_proto_key k) eqn:P; [|reflexivity].
  unfold MapOfLists.with_ in E. rewrite (Hn k P), P in E. discriminate.
Qed.

Lemma with_npe {A} k (m : MapOfLists.t A) l m1 :
  no_inherited_entries m -> MapOfLists.with_ k m = Some (l, m1) -> no_inherited_entries m1.
Proof.
  intros Hn E k' P'. pose proof (with_proto _ _ _ _ Hn E) as Pk.
  destruct (MapOfListsFacts.with_some _ _ _ _ E) as (_ & _ & _ & L).
  rewrite L by (intros ->; congruence). apply Hn, P'.
Qed.

Lemma set_npe {A} k (v : list A) (m : MapOfLists.t A) :
  object_proto_key k = false -> no_inherited_entries m -> no_inherited_entries (MapOfLists.set k v m).
Proof.
  intros Pk Hn k' P'. rewrite MapOfListsFacts.set_lookup_ne by (intros ->; congruence). apply Hn, P'.
Qed.

Lemma removeAll_npe {A} k (m : MapOfLists.t A) :
  no_inherited_entries m -> no_inherited_entries (MapOfLists.removeAll k m).
Proof.
  intros Hn k' P'. unfold MapOfLists.removeAll. rewrite lookup_delete.
  case_decide; [reflexivity|apply Hn, P'].
Qed.

Lemma with_push_npe {A} k (x : A) (m m' : MapOfLists.t A) :
  no_inherited_entries m -> MapOfLists.with_push k x m = Some m' -> no_inherited_entries m'.
Proof.
  intros Hn E. unfold MapOfLists.with_push in E.
  destruct (MapOfLists.with_ k m) as [[l m1]|] eqn:W; [|discriminate]. injection E as <-.
  intros k' P'. rewrite lookup_insert. case_decide as Hk.
  - subst k'. rewrite (with_proto _ _ _ _ Hn W) in P'. discriminate.
  - apply (with_npe _ _ _ _ Hn W), P'.
Qed.

Section Ops.
Context {Client : Type} `{EqDecision Client} `{Transport Client}.

Notation R := (@registry_without_inherited Client).

Lemma send_R s c msg : R s -> R (send s c msg).
Proof. intros Hs. exact Hs. Qed.

Lemma unlinkSilently_R c k s : R s -> R (fst (unlinkSilently c k s)).
Proof.
  intros [H1 H2]. unfold unlinkSilently.
  destruct (MapOfLists.with_ k (keyToSubscribedClients s)) as [[l m1]|] eqn:E; simpl; [|split; assumption].
  split; [|exact H2]. apply set_npe; [exact (with_proto _ _ _ _ H1 E)|exact (with_npe _ _ _ _ H1 E)].
Qed.

Lemma dropSubscription_R k d st : R st -> R (fst (dropSubscription k d st)).
Proof.
  intros [H1 H2]. unfold dropSubscription.
  destruct (MapOfLists.with_ (handle_key d) (clientsToSubscriptions st)) as [[l m1]|] eqn:E; simpl;
    [|split; assumption].
  split; [exact H1|]. apply set_npe; [exact (with_proto _ _ _ _ H2 E)|exact (with_npe _ _ _ _ H2 E)].
Qed.

Lemma sendObjectUpdate_R r msg s : R s -> R (fst (sendObjectUpdate r msg s)).
Proof.
  intros [H1 H2]. unfold sendObjectUpdate.
  destruct (MapOfLists.with_ r (keyToSubscribedClients s)) as [[l m1]|] eqn:E; simpl; [|split; assumption].
  apply (forEach_inv R); [intros c st Hst; exact Hst|].
  split; [exact (with_npe _ _ _ _ H1 E)|exact H2].
Qed.

Lemma ss_link_R c k s : R s -> R (fst (ss_link c k s)).
Proof.
  intros [H1 H2]. unfold ss_link.
  destruct (MapOfLists.with_push k c (keyToSubscribedClients s)) as [m1|] eqn:E1; simpl; [|split; assumption].
  pose proof (with_push_npe _ _ _ _ H1 E1) as H1'.
  destruct (MapOfLists.with_push (id c) k (clientsToSubscriptions s)) as [m2|] eqn:E2; simpl;
    [|split; assumption].
  split; [exact H1'|exact (with_push_npe _ _ _ _ H2 E2)].
Qed.

Lemma clearSubscribers_R k s : R s -> R (fst (clearSubscribers k s)).
Proof.
  intros [H1 H2]. unfold clearSubscribers.
  destruct (MapOfLists.with_ k (keyToSubscribedClients s)) as [[l m1]|] eqn:E; [|split; assumption].
  pose proof (forEach_inv R (dropSubscription k) l (set_k2c s m1) (dropSubscription_R k))
    as HR.
  destruct (forEach (dropSubscription k) l (set_k2c s m1)) as [s1 [e|]]; simpl in *;
    [apply HR; split; [exact (with_npe _ _ _ _ H1 E)|exact H2]|].
  destruct HR as [A B]; [split; [exact (with_npe _ _ _ _ H1 E)|exact H2]|].
  split; [apply removeAll_npe, A|exact B].
Qed.

Lemma disconnect_R c s : R s -> R (fst (disconnect c s)).
Proof.
  intros [H1 H2]. unfold disconnect.
  destruct (MapOfLists.with_ (handle_key c) (clientsToSubscriptions s)) as [[l m1]|] eqn:E;
    simpl; [|split; assumption].
  apply (forEach_inv R); [intros key st; apply unlinkSilently_R|].
  split; [exact H1|exact (with_npe _ _ _ _ H2 E)].
Qed.

Lemma handleChange_R s ch : R s -> R (fst (handleChange s ch)).
Proof.
  intros Hs. unfold handleChange; cbv zeta.
  destruct (changeMessage ch (data s)) as [msg|]; [|exact Hs].
  pose proof (sendObjectUpdate_R (ch_root ch) msg s Hs) as H1.
  destruct (sendObjectUpdate (ch_root ch) msg s) as [s1 [e|]]; [exact H1|].
  destruct (m_op msg); try exact H1. apply clearSubscribers_R, H1.
Qed.

Lemma step_R s ev : R s -> R (step s ev).
Proof.
  intros Hs. destruct ev as [c k|c k|c|dt cs]; cbn [step].
  - unfold link. destruct (is_undefined _); [exact Hs|apply ss_link_R, Hs].
  - unfold unlink, ss_unlink. pose proof (unlinkSilently_R c k s Hs) as H1.
    destruct (unlinkSilently c k s) as [s1 [e|]]; [exact H1|apply send_R, H1].
  - apply disconnect_R, Hs.
  - unfold handleChanges. apply (forEach_inv R); [intros ch st; apply handleChange_R|exact Hs].
Qed.

Lemma run_R evs s : R s -> R (run s evs).
Proof.
  unfold run. revert s. induction evs as [|ev evs IH]; intros s Hs; simpl; [exact Hs|].
  apply IH, step_R, Hs.
Qed.

End Ops.
End InheritedKeys.

Section InheritedKeysClaim.
Context {Client : Type} `{EqDecision Client} `{Transport Client}.

(** X18: starting from a registry in which no key naming a member of
    [Object.prototype] has an entry of its own (a fresh engine, say), no
    sequence of calls, disconnects and mutations ever gives such a key an
    own entry in either map.  So, for such a key [K], [link(c, K)] and
    [unlink(c, K)] always throw and change nothing, and a change record
    with root [K] throws once its message is built, sending nothing. *)
Theorem inherited_keys_never_stored (s : State Client) (evs : list (Event Client)) K
    (Hs : registry_without_inherited s) (Hp : object_proto_key K = true) :
  keyToSubscribedClients (run s evs) !! K = None /\
  clientsToSubscriptions (run s evs) !! K = None /\
  (forall c, exists e, link (run s evs) c K = (run s evs, Some e)) /\
  (forall c, unlink (run s evs) c K = (run s evs, Some TypeError)) /\
  (forall ch msg, ch_root ch = K -> changeMessage ch (data (run s evs)) = Some msg ->
     handleChange (run s evs) ch = (run s evs, Some TypeError)).
Proof.
  destruct (InheritedKeys.run_R evs s Hs) as [H1 H2].
  set (s' := run s evs) in *.
  assert (HK : keyToSubscribedClients s' !! K = None) by exact (H1 K Hp).
  split; [exact HK|]. split; [exact (H2 K Hp)|]. split; [|split].
  - intros c. unfold link. destruct (is_undefined _); [eexists; reflexivity|].
    unfold ss_link, MapOfLists.with_push, MapOfLists.with_. rewrite HK, Hp. eexists; reflexivity.
  - intros c. unfold unlink, ss_unlink, unlinkSilently, MapOfLists.with_. rewrite HK, Hp. reflexivity.
  - intros ch msg Hr Hm. unfold handleChange; cbv zeta. rewrite Hm, Hr.
    unfold sendObjectUpdate, MapOfLists.with_. rewrite HK, Hp. reflexivity.
Qed.

End InheritedKeysClaim.

(** * Witnesses of the further properties *)

Lemma unrepresentable_new_value_witness :
  let ch := mkChange CUpdate "topLevel" [] (JFunc "f" 0) in
  (ch_type ch = CInsert \/ ch_type ch = CUpdate) /\
  exists msg, changeMessage ch ∅ = Some msg /\
    (m_value msg = None <-> ch_value ch = JUndef) /\
    (m_value msg = Some WUndefined <->
       (exists nm ar, ch_value ch = JFunc nm ar) \/ (exists d, ch_value ch = JSym d) \/
       (exists n, ch_value ch = JBigInt n)).
Proof.
  intros ch. assert (Hty : ch_type ch = CInsert \/ ch_type ch = CUpdate) by (right; reflexivity).
  split; [exact Hty|]. exact (unrepresentable_new_value ∅ ch Hty).
Defined.

Lemma withPath_through_missing_witness :
  (withPath nested_foo [SKey "foo"; SKey "missing"] = Some JUndef \/
   withPath nested_foo [SKey "foo"; SKey "missing"] = Some JNull) /\
  [SKey "bar"] <> [] /\
  withPath nested_foo ([SKey "foo"; SKey "missing"] ++ [SKey "bar"]) = None.
Proof.
  assert (Hp : withPath nested_foo [SKey "foo"; SKey "missing"] = Some JUndef \/
               withPath nested_foo [SKey "foo"; SKey "missing"] = Some JNull)
    by (left; vm_compute; reflexivity).
  assert (Hq : [SKey "bar"] <> []) by discriminate.
  split; [exact Hp|]. split; [exact Hq|].
  exact (withPath_through_missing nested_foo [SKey "foo"; SKey "missing"] [SKey "bar"] Hp Hq).
Defined.

Lemma unlink_non_member_witness :
  (object_proto_key "foo" = false \/ keyToSubscribedClients s_foo !! "foo"%string <> None) /\
  ~ In client1 (subscribers s_foo "foo") /\
  exists s', unlink s_foo client1 "foo" = (s', None) /\
    (forall K, subscribers s' K = subscribers s_foo K) /\
    outbox s' = outbox s_foo ++ [(client1, closed_msg "foo")].
Proof.
  assert (Hk : object_proto_key "foo" = false \/ keyToSubscribedClients s_foo !! "foo"%string <> None)
    by (left; reflexivity).
  assert (Hn : ~ In client1 (subscribers s_foo "foo")) by (vm_compute; intros []).
  split; [exact Hk|]. split; [exact Hn|]. exact (unlink_non_member s_foo client1 "foo" Hk Hn).
Defined.

Lemma link_then_unlink_witness :
  let s1 := fst (link s_foo client1 "foo") in
  link s_foo client1 "foo" = (s1, None) /\
  ~ In client1 (subscribers s_foo "foo") /\
  forall K', subscribers (fst (unlink s1 client1 "foo")) K' = subscribers s_foo K'.
Proof.
  intros s1.
  assert (Hl : link s_foo client1 "foo" = (s1, None)) by (vm_compute; reflexivity).
  assert (Hn : ~ In client1 (subscribers s_foo "foo")) by (vm_compute; intros []).
  split; [exact Hl|]. split; [exact Hn|].
  exact (link_then_unlink s_foo s1 client1 "foo" Hl Hn).
Defined.

Lemma clearSubscribers_effect_witness :
  (object_proto_key "foo" = false \/ keyToSubscribedClients s_linked !! "foo"%string <> None) /\
  Forall (fun d => object_proto_key (handle_key d) = false) (subscribers s_linked "foo") /\
  exists s', clearSubscribers "foo" s_linked = (s', None) /\
    subscribers s' "foo" = [] /\
    (forall K, K <> "foo"%string -> subscribers s' K = subscribers s_linked K) /\
    outbox s' = outbox s_linked /\
    (forall x K', In K' (MapOfLists.get x (clientsToSubscriptions s')) <->
       In K' (MapOfLists.get x (clientsToSubscriptions s_linked)) /\
       (K' <> "foo"%string \/ ~ In x (map handle_key (subscribers s_linked "foo")))).
Proof.
  assert (Hk : object_proto_key "foo" = false \/ keyToSubscribedClients s_linked !! "foo"%string <> None)
    by (left; reflexivity).
  assert (Hh : Forall (fun d => object_proto_key (handle_key d) = false) (subscribers s_linked "foo"))
    by (vm_compute; repeat constructor).
  split; [exact Hk|]. split; [exact Hh|]. exact (clearSubscribers_effect "foo" s_linked Hk Hh).
Defined.

Lemma handleChange_routing_witness :
  let ch := mkChange CUpdate "foo" [] (JStr "def") in
  let s' := fst (handleChange s_linked ch) in
  handleChange s_linked ch = (s', None) /\
  exists msg, m_key msg = ch_root ch /\
    outbox s' = outbox s_linked ++ map (fun d => (d, msg)) (subscribers s_linked (ch_root ch)) /\
    data s' = data s_linked.
Proof.
  intros ch s'. assert (Hok : handleChange s_linked ch = (s', None)) by (vm_compute; reflexivity).
  split; [exact Hok|]. exact (handleChange_routing s_linked s' ch Hok).
Defined.

Lemma registry_consistent_without_removals_witness :
  let evs : list (Event string) :=
    [EvMutate foo_abc [mkChange CInsert "foo" [] (JStr "abc")]; EvLink "a" "foo"; EvLink "b" "foo";
     EvMutate ∅ [mkChange CDelete "foo" [] JUndef]] in
  (forall c : string, handle_key c = id c) /\ (forall c d : string, id c = id d -> c = d) /\
  consistent empty_string_state /\ registered_ids_plain empty_string_state /\
  forallb (fun ev => no_removal ev && plain_link_id ev) evs = true /\
  consistent (run empty_string_state evs).
Proof.
  intros evs.
  assert (Hk : forall c : string, handle_key c = id c) by reflexivity.
  assert (Hi : forall c d : string, id c = id d -> c = d) by (intros c d E; exact E).
  assert (He : consistent empty_string_state).
  { intros c K. unfold subscribers, MapOfLists.get. simpl. rewrite !lookup_empty. simpl. tauto. }
  assert (Hp : registered_ids_plain empty_string_state).
  { intros K d. unfold subscribers, MapOfLists.get. simpl. rewrite lookup_empty. intros []. }
  assert (Hevs : forallb (fun ev => no_removal ev && plain_link_id ev) evs = true) by reflexivity.
  split; [exact Hk|]. split; [exact Hi|]. split; [exact He|]. split; [exact Hp|]. split; [exact Hevs|].
  exact (registry_consistent_without_removals Hk Hi empty_string_state evs He Hp Hevs).
Defined.


Lemma link_inherited_key_throws_witness :
  data s_foo !! "hasOwnProperty"%string = None /\ object_proto_key "hasOwnProperty" = true /\
  keyToSubscribedClients s_foo !! "hasOwnProperty"%string = None /\
  is_undefined (data_get (data s_foo) "hasOwnProperty") = false /\
  link s_foo client1 "hasOwnProperty" = (s_foo, Some TypeError).
Proof.
  assert (Hd : data s_foo !! "hasOwnProperty"%string = None) by (vm_compute; reflexivity).
  assert (Hp : object_proto_key "hasOwnProperty" = true) by reflexivity.
  assert (Hk : keyToSubscribedClients s_foo !! "hasOwnProperty"%string = None) by (vm_compute; reflexivity).
  split; [exact Hd|]. split; [exact Hp|]. split; [exact Hk|].
  exact (link_inherited_key_throws s_foo client1 "hasOwnProperty" Hd Hp Hk).
Defined.

Lemma link_defined_sends_init_witness :
  is_undefined (data_get (data s_foo) "foo") = false /\
  (object_proto_key "foo" = false \/ keyToSubscribedClients s_foo !! "foo"%string <> None) /\
  (object_proto_key (id client1) = false \/ clientsToSubscriptions s_foo !! id client1 <> None) /\
  exists s', link s_foo client1 "foo" = (s', None) /\
    subscribers s' "foo" = subscribers s_foo "foo" ++ [client1] /\
    MapOfLists.get (id client1) (clientsToSubscriptions s') =
      MapOfLists.get (id client1) (clientsToSubscriptions s_foo) ++ ["foo"%string] /\
    outbox s' = outbox s_foo ++ [(client1, init_msg "foo" (data_get (data s_foo) "foo"))] /\
    forall evs, exists sfx,
      outbox (run s' evs) = outbox s_foo ++ (client1, init_msg "foo" (data_get (data s_foo) "foo")) :: sfx.
Proof.
  assert (Hdef : is_undefined (data_get (data s_foo) "foo") = false) by (vm_compute; reflexivity).
  assert (HK : object_proto_key "foo" = false \/ keyToSubscribedClients s_foo !! "foo"%string <> None)
    by (left; reflexivity).
  assert (Hid : object_proto_key (id client1) = false \/ clientsToSubscriptions s_foo !! id client1 <> None)
    by (left; reflexivity).
  split; [exact Hdef|]. split; [exact HK|]. split; [exact Hid|].
  exact (link_defined_sends_init s_foo client1 "foo" Hdef HK Hid).
Defined.

Lemma unlink_closes_witness :
  (object_proto_key "foo" = false \/ keyToSubscribedClients s_linked !! "foo"%string <> None) /\
  object_proto_key (id client1) = false /\
  exists s', unlink s_linked client1 "foo" = (s', None) /\
    outbox s' = outbox s_linked ++ [(client1, closed_msg "foo")] /\
    ~ In client1 (subscribers s' "foo") /\
    (forall evs, relinks client1 "foo" s' evs = false ->
       exists sfx, outbox (run s' evs) = outbox s' ++ sfx /\ only_closed client1 "foo" sfx) /\
    (forall evs, is_undefined (data_get (data (run s' evs)) "foo") = false -> object_proto_key "foo" = false ->
       exists s'', link (run s' evs) client1 "foo" = (s'', None) /\ In client1 (subscribers s'' "foo")).
Proof.
  assert (HK : object_proto_key "foo" = false \/ keyToSubscribedClients s_linked !! "foo"%string <> None)
    by (left; reflexivity).
  assert (Hid : object_proto_key (id client1) = false) by reflexivity.
  split; [exact HK|]. split; [exact Hid|]. exact (unlink_closes s_linked client1 "foo" HK Hid).
Defined.

Lemma inherited_keys_never_stored_witness :
  let evs := [EvMutate toString_abc [mkChange CInsert "toString" [] (JStr "abc")];
              EvLink client1 "toString"; EvLink (fake "constructor") "toString"] in
  registry_without_inherited empty_state /\ object_proto_key "toString" = true /\
  keyToSubscribedClients (run empty_state evs) !! "toString"%string = None /\
  clientsToSubscriptions (run empty_state evs) !! "toString"%string = None /\
  (forall c, exists e, link (run empty_state evs) c "toString" = (run empty_state evs, Some e)) /\
  (forall c, unlink (run empty_state evs) c "toString" = (run empty_state evs, Some TypeError)) /\
  (forall ch msg, ch_root ch = "toString"%string -> changeMessage ch (data (run empty_state evs)) = Some msg ->
     handleChange (run empty_state evs) ch = (run empty_state evs, Some TypeError)).
Proof.
  intros evs.
  assert (Hs : registry_without_inherited empty_state) by (split; intros k _; apply lookup_empty).
  assert (Hp : object_proto_key "toString" = true) by reflexivity.
  split; [exact Hs|]. split; [exact Hp|].
  exact (inherited_keys_never_stored empty_state evs "toString" Hs Hp).
Defined.
